(** * AlternateHistories: the scenario catalog, the AI client and the game engine

    A shallow embedding of [src/scenarios.py], [src/ai_client.py] and
    [src/game_engine.py], and the properties of the session life cycle
    proved on it. *)

From Stdlib Require Import List String Ascii Bool ZArith Lia Floats.
Import ListNotations.
Local Open Scope string_scope.
Local Open Scope list_scope.

Set Implicit Arguments.
Set Warnings "-register-all".

(** ** Python values *)

Module Py.

(** What [json.loads] can produce: [None], [bool], [int], [float], [str],
    [list] and [dict].  A [dict] keeps its insertion order, so it is an
    association list (a Python [dict] has each key once; a key is looked
    up at its first occurrence).  A [str] is the [string] of its UTF-8
    bytes: a character of ASCII is one [ascii], any other is a lead byte
    followed by its continuation bytes. *)
Inductive json : Type :=
  | JNull
  | JBool (b : bool)
  | JInt (z : Z)
  | JFloat (f : float)
  | JString (s : string)
  | JArray (items : list json)
  | JObject (entries : list (string * json)).

(** An exception raised inside a library, known by its text: by the
    OpenAI client, or by [json.loads]. *)
Inductive library_exn : Type :=
  | ClientError (err : string)
  | DecodeError (err : string).

(** The exceptions the engine can meet; all of them derive from
    [Exception] (a [KeyboardInterrupt] and the like are not among them).
    [Exception] carries its message and the exception that was being
    handled when it was raised (its [__context__]); [KeyError] the missing
    key. *)
Inductive exn : Type :=
  | Exception (msg : string) (context : library_exn)
  | KeyError (key : string)
  | TypeError
  | AttributeError.

(** The class of an exception, as an [except] clause or a caller would
    test it with [isinstance]. *)
Inductive exn_class : Type :=
  | ExceptionClass
  | KeyErrorClass
  | TypeErrorClass
  | AttributeErrorClass.

Definition class_of (x : exn) : exn_class :=
  match x with
  | Exception _ _ => ExceptionClass
  | KeyError _ => KeyErrorClass
  | TypeError => TypeErrorClass
  | AttributeError => AttributeErrorClass
  end.

(** The outcome of evaluating an expression or calling a function. *)
Inductive result (A : Type) : Type :=
  | Returned (a : A)
  | Raised (x : exn).
Arguments Returned {A} a.
Arguments Raised {A} x.

Definition result_bind {A B} (r : result A) (k : A -> result B) : result B :=
  match r with
  | Returned a => k a
  | Raised x => Raised x
  end.

Fixpoint result_map {A B} (f : A -> result B) (l : list A) : result (list B) :=
  match l with
  | [] => Returned []
  | a :: l' =>
      result_bind (f a) (fun b =>
      result_bind (result_map f l') (fun bs => Returned (b :: bs)))
  end.

(** [d.get(key)] on a [dict]. *)
Fixpoint dict_get {V} (key : string) (d : list (string * V)) : option V :=
  match d with
  | [] => None
  | (k, v) :: d' => if String.eqb k key then Some v else dict_get key d'
  end.

(** [bool(v)]: the truth value Python gives [v] in an [if]. *)
Definition truthy (v : json) : bool :=
  match v with
  | JNull => false
  | JBool b => b
  | JInt z => negb (Z.eqb z 0)
  | JFloat f => negb (PrimFloat.eqb f PrimFloat.zero)
  | JString s => match s with EmptyString => false | String _ _ => true end
  | JArray items => match items with [] => false | _ => true end
  | JObject entries => match entries with [] => false | _ => true end
  end.

(** [v[key]] with a [str] key: only a [dict] can be subscripted so. *)
Definition getitem (v : json) (key : string) : result json :=
  match v with
  | JObject entries =>
      match dict_get key entries with
      | Some x => Returned x
      | None => Raised (KeyError key)
      end
  | _ => Raised TypeError
  end.

(** [v.get(key, default)]: a method of [dict] alone. *)
Definition get_method (v : json) (key : string) (default : json) : result json :=
  match v with
  | JObject entries =>
      match dict_get key entries with
      | Some x => Returned x
      | None => Returned default
      end
  | _ => Raised AttributeError
  end.

(** A continuation byte of UTF-8: [10xxxxxx]. *)
Definition continuation (c : ascii) : bool :=
  match c with
  | Ascii _ _ _ _ _ _ b6 b7 => b7 && negb b6
  end.

Definition continues (s : string) : bool :=
  match s with
  | EmptyString => false
  | String c _ => continuation c
  end.

(** The characters of a [str], each a [str] of length one: a byte is put
    together with the continuation bytes that follow it. *)
Fixpoint chars (s : string) : list json :=
  match s with
  | EmptyString => []
  | String c s' =>
      if continues s' then
        match chars s' with
        | JString following :: rest => JString (String c following) :: rest
        | rest => JString (String c EmptyString) :: rest
        end
      else JString (String c EmptyString) :: chars s'
  end.

(** The items [for x in v] goes through: the elements of a [list], the
    characters of a [str], the keys of a [dict]; nothing else iterates. *)
Definition iterate (v : json) : result (list json) :=
  match v with
  | JArray items => Returned items
  | JString s => Returned (chars s)
  | JObject entries => Returned (map (fun kv => JString (fst kv)) entries)
  | _ => Raised TypeError
  end.

(** [v == s] for a [str] [s]: only an equal [str] compares equal. *)
Definition eq_str (v : json) (s : string) : bool :=
  match v with
  | JString t => String.eqb t s
  | _ => false
  end.

(** [l[-n:]]. *)
Definition last_n {A} (n : nat) (l : list A) : list A :=
  skipn (List.length l - n) l.

End Py.
Import Py.

(** ** [scenarios.py] *)

Module Scenarios.

(** The dataclass [HistoricalScenario].  It has no identifier field: a
    scenario is identified by the key [AVAILABLE_SCENARIOS] stores it under. *)
Record HistoricalScenario : Type := {
  name : string;
  description : string;
  time_period : string;
  initial_situation : string
}.

Definition library_alexandria : HistoricalScenario :=
  {| name := "The Library of Alexandria";
     description := "What if the great Library of Alexandria was never destroyed?";
     time_period := "48 BCE - 641 CE";
     initial_situation :=
       ("You are the head librarian of the Great Library of Alexandria in 48 BCE. "
       ++ "Julius Caesar's forces have accidentally started a fire that threatens to spread "
       ++ "to the library district. You must decide how to protect the world's greatest "
       ++ "collection of knowledge while the city burns around you.")%string |}.

Definition mongol_europe : HistoricalScenario :=
  {| name := "Mongol Invasion of Europe";
     description := "What if the Mongols had successfully conquered all of Europe?";
     time_period := "1241 CE";
     initial_situation :=
       ("You are Ögedei Khan, son of Genghis Khan, and your Mongol forces have just "
       ++ "crushed European armies at Mohi and Legnica. All of Europe lies open before you, "
       ++ "but news arrives that forces you to make a crucial decision about the future "
       ++ "of your western campaign.")%string |}.

Definition columbus_pacific : HistoricalScenario :=
  {| name := "Columbus Sails West to Asia";
     description := "What if Columbus had actually reached Asia by sailing west?";
     time_period := "1492 CE";
     initial_situation :=
       ("You are Christopher Columbus, and after months at sea, you've finally reached "
       ++ "what you believe to be the Indies. However, the lands and peoples you encounter "
       ++ "are unlike anything described by Marco Polo. You must decide how to proceed "
       ++ "with your mission while managing increasingly restless crew members.")%string |}.

Definition black_death : HistoricalScenario :=
  {| name := "The Black Death Prevention";
     description := "What if medieval physicians had understood disease transmission?";
     time_period := "1347 CE";
     initial_situation :=
       ("You are a physician in the port city of Genoa when ships arrive carrying "
       ++ "a mysterious plague from the East. Unlike your contemporaries, you suspect "
       ++ "this disease spreads through contact rather than 'bad air.' You must convince "
       ++ "the city authorities to take unprecedented quarantine measures.")%string |}.

Definition archduke_survives : HistoricalScenario :=
  {| name := "Archduke Franz Ferdinand Lives";
     description := "What if the assassination of Archduke Franz Ferdinand had failed?";
     time_period := "June 28, 1914";
     initial_situation :=
       ("You are Archduke Franz Ferdinand of Austria-Hungary, and you've just survived "
       ++ "an assassination attempt in Sarajevo. Your driver took a wrong turn, but your "
       ++ "quick thinking saved your life when Gavrilo Princip's shot missed. As tensions "
       ++ "rise across Europe, you must decide how to respond to this act of Serbian nationalism "
       ++ "while your empire teeters on the brink of war.")%string |}.

Definition lusitania_warning : HistoricalScenario :=
  {| name := "The Lusitania's Final Voyage";
     description := "What if the Lusitania had heeded Germany's submarine warnings?";
     time_period := "May 7, 1915";
     initial_situation :=
       ("You are Captain William Turner of the RMS Lusitania. German U-boats have been "
       ++ "attacking ships in these waters, and you've received warnings about submarine "
       ++ "activity. Your ship carries 1,962 passengers and crew, including many Americans. "
       ++ "You must decide whether to alter course, reduce speed for safety, or maintain "
       ++ "schedule despite the submarine threat off the Irish coast.")%string |}.

Definition zimmermann_intercepted : HistoricalScenario :=
  {| name := "The Zimmermann Telegram Plot";
     description := "What if Germany's secret alliance offer to Mexico had succeeded?";
     time_period := "January 1917";
     initial_situation :=
       ("You are Foreign Secretary Arthur Zimmermann of Germany. Your secret telegram "
       ++ "proposing a German-Mexican alliance against the United States has been sent, "
       ++ "but you're unaware that British intelligence has intercepted it. Mexico shows "
       ++ "interest in your offer of reclaiming Texas, New Mexico, and Arizona. You must "
       ++ "decide how to proceed with this alliance while managing the risk of bringing "
       ++ "America into the European war.")%string |}.

Definition hitler_art_school : HistoricalScenario :=
  {| name := "The Rejected Artist's Path";
     description := "What if Adolf Hitler had been accepted into art school?";
     time_period := "September 1907";
     initial_situation :=
       ("You are the admissions director of the Vienna Academy of Fine Arts. A passionate "
       ++ "young man named Adolf Hitler from Austria has applied for the second time after "
       ++ "being rejected last year. His artwork shows some talent but lacks technical skill. "
       ++ "However, his determination is evident. You must decide whether to give him another "
       ++ "chance, knowing that this decision could alter the path of a future political figure.")%string |}.

Definition pearl_harbor_warning : HistoricalScenario :=
  {| name := "The Pearl Harbor Intelligence";
     description := "What if the US had acted on early warnings about Pearl Harbor?";
     time_period := "December 6, 1941";
     initial_situation :=
       ("You are Admiral Husband Kimmel, commander of the US Pacific Fleet at Pearl Harbor. "
       ++ "Intelligence reports suggest increased Japanese naval activity, and you've received "
       ++ "vague warnings about possible attacks. However, Washington believes any Japanese "
       ++ "action will target the Philippines or Southeast Asia. With limited resources and "
       ++ "conflicting intelligence, you must decide how to position your fleet and defenses "
       ++ "for the next 24 hours.")%string |}.

Definition operation_barbarossa : HistoricalScenario :=
  {| name := "Stalin's Dilemma";
     description := "What if Stalin had believed the warnings about German invasion?";
     time_period := "June 20, 1941";
     initial_situation :=
       ("You are Joseph Stalin, and multiple intelligence sources are warning that Germany "
       ++ "is about to break the Molotov-Ribbentrop Pact and invade the Soviet Union. Your "
       ++ "generals urge mobilization, but you fear that aggressive preparations might provoke "
       ++ "Hitler into an attack he's not actually planning. German troops are massing on "
       ++ "your border, but diplomatic channels remain open. You must decide whether to fully "
       ++ "mobilize the Red Army or maintain the non-aggression pact.")%string |}.

Definition d_day_weather : HistoricalScenario :=
  {| name := "D-Day: The Weather Decision";
     description := "What if Operation Overlord had been postponed due to weather?";
     time_period := "June 4, 1944";
     initial_situation :=
       ("You are General Dwight D. Eisenhower, Supreme Allied Commander. Operation Overlord, "
       ++ "the invasion of Normandy, is scheduled for tomorrow, but meteorologists predict "
       ++ "terrible weather - high winds and rough seas that could doom the operation. "
       ++ "Postponing means losing the element of surprise and risking German reinforcements. "
       ++ "The tides won't be favorable again for weeks. You must decide whether to proceed "
       ++ "with the invasion despite the weather or postpone and risk the consequences.")%string |}.

(** [AVAILABLE_SCENARIOS], in the order the source lists it. *)
Definition AVAILABLE_SCENARIOS : list (string * HistoricalScenario) :=
  [ ("library_alexandria", library_alexandria);
    ("mongol_europe", mongol_europe);
    ("columbus_pacific", columbus_pacific);
    ("black_death", black_death);
    ("archduke_survives", archduke_survives);
    ("lusitania_warning", lusitania_warning);
    ("zimmermann_intercepted", zimmermann_intercepted);
    ("hitler_art_school", hitler_art_school);
    ("pearl_harbor_warning", pearl_harbor_warning);
    ("operation_barbarossa", operation_barbarossa);
    ("d_day_weather", d_day_weather) ].

(** [get_scenario_list()]: the keys with the descriptions, in the same order. *)
Definition get_scenario_list : list (string * string) :=
  map (fun entry => (fst entry, description (snd entry))) AVAILABLE_SCENARIOS.

Definition scenario_eqb (a b : HistoricalScenario) : bool :=
  String.eqb (name a) (name b) && String.eqb (description a) (description b)
  && String.eqb (time_period a) (time_period b)
  && String.eqb (initial_situation a) (initial_situation b).

(** The identifier of a scenario definition: the key of the first catalog
    entry that holds it. *)
Fixpoint key_of (sc : HistoricalScenario) (d : list (string * HistoricalScenario))
  : option string :=
  match d with
  | [] => None
  | (k, v) :: d' => if scenario_eqb v sc then Some k else key_of sc d'
  end.

Definition identifier_of (sc : HistoricalScenario) : option string :=
  key_of sc AVAILABLE_SCENARIOS.

End Scenarios.
Import Scenarios.

(** ** [ai_client.py] *)

Module Client.

(** A prompt, kept as the values its f-string interpolates: the scenario
    name, the current situation, and the descriptions of the last choices
    (choice generation) or of the choice just made (consequences). *)
Inductive prompt : Type :=
  | ChoicePrompt (context : string) (situation : json) (previous : list json)
  | ConsequencePrompt (context : string) (situation : json) (choice_made : json).

(** The arguments of [chat.completions.create] that vary. *)
Record request : Type := {
  req_model : string;
  req_prompt : prompt;
  max_tokens : nat
}.

(** The text of a reply ([message.content]).  The code only ever hands it
    to [json.loads], so it is known by what [json.loads] makes of it: the
    decoded value, or the error raised (with its text). *)
Inductive content : Type :=
  | Undecodable (err : string)
  | Decodable (value : json).

(** What one call of the service comes to: an exception (with its text),
    or a reply. *)
Inductive reply : Type :=
  | Failure (err : string)
  | Content (text : content).

(** The client object.  The remote service is an oracle giving the outcome
    of the n-th call of [chat.completions.create]; [sent] records the
    calls made so far, by their arguments (what the OpenAI library does
    below a call, its retries among it, is not seen here). *)
Record AIClient : Type := {
  model : string;
  service : nat -> request -> reply;
  sent : list request
}.

(** [AIClient.__init__]. *)
Definition new_client (service : nat -> request -> reply) : AIClient :=
  {| model := "gpt-4"; service := service; sent := [] |}.

(** What the service answers to [r] when [r] is the next request. *)
Definition next_reply (c : AIClient) (r : request) : reply :=
  service c (List.length (sent c)) r.

(** [self.client.chat.completions.create(...)] followed by
    [response.choices[0].message.content]. *)
Definition create (c : AIClient) (r : request) : AIClient * reply :=
  ({| model := model c; service := service c; sent := sent c ++ [r] |},
   next_reply c r).

Definition generate_choices (c : AIClient) (p : prompt) : AIClient * result content :=
  let (c', r) := create c {| req_model := model c; req_prompt := p; max_tokens := 500 |} in
  match r with
  | Content text => (c', Returned text)
  | Failure err =>
      (c', Raised (Exception ("AI choice generation failed: " ++ err)
                             (ClientError err)))
  end.

Definition generate_consequence (c : AIClient) (p : prompt) : AIClient * result json :=
  let (c', r) := create c {| req_model := model c; req_prompt := p; max_tokens := 800 |} in
  match r with
  | Content (Decodable value) => (c', Returned value)
  | Content (Undecodable err) =>
      (c', Raised (Exception ("AI consequence generation failed: " ++ err)
                             (DecodeError err)))
  | Failure err =>
      (c', Raised (Exception ("AI consequence generation failed: " ++ err)
                             (ClientError err)))
  end.

End Client.
Import Client.

(** ** [ui.py]: the loading indicator *)

Module UI.

Record ConsoleUI : Type := {
  width : nat;
  _loading : bool
}.

Definition start_loading (u : ConsoleUI) : ConsoleUI :=
  {| width := width u; _loading := true |}.

Definition stop_loading (u : ConsoleUI) : ConsoleUI :=
  {| width := width u; _loading := false |}.

End UI.
Import UI.

(** ** [game_engine.py] *)

Module Engine.

Record GameState : Type := {
  scenario : HistoricalScenario;
  current_situation : json;
  choices_made : list json;
  timeline_alterations : list json;
  is_complete : bool
}.

(** [GameState.__init__]. *)
Definition new_state (sc : HistoricalScenario) : GameState :=
  {| scenario := sc;
     current_situation := JString (initial_situation sc);
     choices_made := [];
     timeline_alterations := [];
     is_complete := false |}.

Record GameEngine : Type := {
  ai_client : AIClient;
  current_state : option GameState;
  _active : bool;
  ui : option ConsoleUI
}.

(** [GameEngine.__init__]. *)
Definition new_engine (service : nat -> request -> reply) : GameEngine :=
  {| ai_client := new_client service;
     current_state := None;
     _active := false;
     ui := None |}.

Definition set_ui (e : GameEngine) (u : ConsoleUI) : GameEngine :=
  {| ai_client := ai_client e; current_state := current_state e;
     _active := _active e; ui := Some u |}.

(** *** Methods as computations on the engine

    A method body runs on the engine it is called on, may change it, and
    either returns or raises; what it changed before raising stays changed. *)
Definition M (A : Type) : Type := GameEngine -> GameEngine * result A.

Definition ret {A} (a : A) : M A := fun e => (e, Returned a).

Definition raise {A} (x : exn) : M A := fun e => (e, Raised x).

Definition bind {A B} (m : M A) (k : A -> M B) : M B :=
  fun e =>
    match m e with
    | (e', Returned a) => k a e'
    | (e', Raised x) => (e', Raised x)
    end.

Notation "x <- m ;; k" := (bind m (fun x => k))
  (at level 61, m at next level, right associativity).
Notation "m ;; k" := (bind m (fun _ => k))
  (at level 61, right associativity).

(** [try: body / except Exception: handler]. *)
Definition try_except {A} (body handler : M A) : M A :=
  fun e =>
    match body e with
    | (e', Returned a) => (e', Returned a)
    | (e', Raised _) => handler e'
    end.

Definition lift {A} (r : result A) : M A := fun e => (e, r).

(** [self.current_state], which must be a [GameState] for an attribute of
    it to be read or assigned. *)
Definition state : M GameState :=
  fun e =>
    match current_state e with
    | Some s => (e, Returned s)
    | None => (e, Raised AttributeError)
    end.

Definition update_state (f : GameState -> GameState) : M unit :=
  fun e =>
    match current_state e with
    | Some s =>
        ({| ai_client := ai_client e; current_state := Some (f s);
            _active := _active e; ui := ui e |}, Returned tt)
    | None => (e, Raised AttributeError)
    end.

Definition set_current_situation (v : json) : M unit :=
  update_state (fun s =>
    {| scenario := scenario s; current_situation := v;
       choices_made := choices_made s;
       timeline_alterations := timeline_alterations s;
       is_complete := is_complete s |}).

Definition append_choice (choice : json) : M unit :=
  update_state (fun s =>
    {| scenario := scenario s; current_situation := current_situation s;
       choices_made := choices_made s ++ [choice];
       timeline_alterations := timeline_alterations s;
       is_complete := is_complete s |}).

Definition extend_timeline (items : list json) : M unit :=
  update_state (fun s =>
    {| scenario := scenario s; current_situation := current_situation s;
       choices_made := choices_made s;
       timeline_alterations := timeline_alterations s ++ items;
       is_complete := is_complete s |}).

Definition set_is_complete (b : bool) : M unit :=
  update_state (fun s =>
    {| scenario := scenario s; current_situation := current_situation s;
       choices_made := choices_made s;
       timeline_alterations := timeline_alterations s;
       is_complete := b |}).

(** [if self.ui: self.ui.start_loading(...)] and its [stop_loading] twin. *)
Definition with_ui (f : ConsoleUI -> ConsoleUI) : M unit :=
  fun e =>
    ({| ai_client := ai_client e; current_state := current_state e;
        _active := _active e; ui := option_map f (ui e) |}, Returned tt).

(** A call of a method of [self.ai_client]. *)
Definition call_client {A} (f : AIClient -> AIClient * result A) : M A :=
  fun e =>
    let (c', r) := f (ai_client e) in
    ({| ai_client := c'; current_state := current_state e;
        _active := _active e; ui := ui e |}, r).

(** *** The methods *)

Definition start_scenario (scenario_name : string) (e : GameEngine)
  : GameEngine * bool :=
  match dict_get scenario_name AVAILABLE_SCENARIOS with
  | None => (e, false)
  | Some sc =>
      ({| ai_client := ai_client e; current_state := Some (new_state sc);
          _active := true; ui := ui e |}, true)
  end.

Definition is_active (e : GameEngine) : bool :=
  _active e
  && match current_state e with
     | Some s => negb (is_complete s)
     | None => false
     end.

(** The dictionary [get_current_state] returns; [None] stands for the
    empty one. *)
Record Display : Type := {
  scenario_name : string;
  situation : json;
  decisions : nat;
  alterations : list json
}.

Definition get_current_state (e : GameEngine) : option Display :=
  match current_state e with
  | None => None
  | Some s =>
      Some {| scenario_name := name (scenario s);
              situation := current_situation s;
              decisions := List.length (choices_made s);
              alterations := timeline_alterations s |}
  end.

Definition _build_choice_generation_prompt : M prompt :=
  s <- state ;;
  previous <- lift (result_map (fun choice => getitem choice "description")
                               (last_n 3 (choices_made s))) ;;
  ret (ChoicePrompt (name (scenario s)) (current_situation s) previous).

Definition _build_consequence_prompt (choice : json) : M prompt :=
  s <- state ;;
  d <- lift (getitem choice "description") ;;
  ret (ConsequencePrompt (name (scenario s)) (current_situation s) d).

Definition _get_fallback_choices : json :=
  JArray
    [ JObject
        [ ("id", JString "diplomatic");
          ("description", JString "Pursue diplomatic negotiations");
          ("potential_impact",
           JString "May lead to peaceful resolution but could show weakness") ];
      JObject
        [ ("id", JString "aggressive");
          ("description", JString "Take decisive military action");
          ("potential_impact", JString "Quick results but may escalate conflict") ];
      JObject
        [ ("id", JString "wait");
          ("description", JString "Wait and gather more information");
          ("potential_impact", JString "Safer approach but may miss opportunities") ] ].

(** [json.loads(ai_response)] then [data.get('choices', [])], any
    exception of either giving the fallback choices. *)
Definition _parse_ai_choices (ai_response : content) : json :=
  match ai_response with
  | Undecodable _ => _get_fallback_choices
  | Decodable data =>
      match get_method data "choices" (JArray []) with
      | Returned choices => choices
      | Raised _ => _get_fallback_choices
      end
  end.

Definition get_available_choices : M json :=
  fun e =>
    match current_state e with
    | None => (e, Returned (JArray []))
    | Some s =>
        if is_complete s then (e, Returned (JArray []))
        else
          (prompt <- _build_choice_generation_prompt ;;
           try_except
             (with_ui start_loading ;;
              response <- call_client (fun c => generate_choices c prompt) ;;
              with_ui stop_loading ;;
              ret (_parse_ai_choices response))
             (with_ui stop_loading ;;
              ret _get_fallback_choices)) e
    end.

(** [next((choice for choice in available_choices
          if choice['id'] == choice_id), None)]. *)
Fixpoint first_match (choice_id : string) (items : list json) : result (option json) :=
  match items with
  | [] => Returned None
  | choice :: rest =>
      result_bind (getitem choice "id") (fun i =>
        if eq_str i choice_id then Returned (Some choice)
        else first_match choice_id rest)
  end.

Definition find_choice (available_choices : json) (choice_id : string)
  : result (option json) :=
  result_bind (iterate available_choices) (first_match choice_id).

Section Formatting.

(** [repr(v)], Python's built-in rendering of a value, which an f-string
    uses for every value but a [str]. *)
Variable repr : json -> string.

(** [str(v)], what [f"{v}"] inserts. *)
Definition py_str (v : json) : string :=
  match v with
  | JString s => s
  | _ => repr v
  end.

Definition fallback_situation (description : json) : string :=
  "Your choice to '" ++ py_str description
  ++ "' has created ripple effects through history...".

(** The [try] block of [make_choice] and its handler. *)
Definition apply_consequence (consequence_prompt : prompt) : M unit :=
  with_ui start_loading ;;
  consequence <- call_client (fun c => generate_consequence c consequence_prompt) ;;
  with_ui stop_loading ;;
  new_situation <- lift (getitem consequence "new_situation") ;;
  set_current_situation new_situation ;;
  changes <- lift (get_method consequence "alterations" (JArray [])) ;;
  items <- lift (iterate changes) ;;
  extend_timeline items ;;
  ending <- lift (get_method consequence "is_ending" (JBool false)) ;;
  if truthy ending then set_is_complete true else ret tt.

Definition fallback_consequence (chosen_option : json) : M unit :=
  with_ui stop_loading ;;
  d <- lift (getitem chosen_option "description") ;;
  set_current_situation (JString (fallback_situation d)).

(** [choice_id] is a [str], as the signature has it. *)
Definition make_choice (choice_id : string) : M bool :=
  fun e =>
    match current_state e with
    | None => (e, Returned false)
    | Some _ =>
        (available_choices <- get_available_choices ;;
         found <- lift (find_choice available_choices choice_id) ;;
         match found with
         | None => ret false
         | Some chosen_option =>
             if negb (truthy chosen_option) then ret false
             else
               append_choice chosen_option ;;
               consequence_prompt <- _build_consequence_prompt chosen_option ;;
               try_except (apply_consequence consequence_prompt)
                          (fallback_consequence chosen_option) ;;
               ret true
         end) e
    end.

(** *** Calls in sequence *)

Inductive call : Type :=
  | GetAvailableChoices
  | MakeChoice (choice_id : string).

Inductive outcome : Type :=
  | Choices (r : result json)
  | Made (r : result bool).

Definition perform (c : call) (e : GameEngine) : GameEngine * outcome :=
  match c with
  | GetAvailableChoices =>
      let (e', r) := get_available_choices e in (e', Choices r)
  | MakeChoice choice_id =>
      let (e', r) := make_choice choice_id e in (e', Made r)
  end.

Fixpoint run (calls : list call) (e : GameEngine) : GameEngine * list outcome :=
  match calls with
  | [] => (e, [])
  | c :: rest =>
      let (e1, o) := perform c e in
      let (e2, os) := run rest e1 in
      (e2, o :: os)
  end.

End Formatting.

End Engine.
Import Engine.

(** * Vocabulary of the statements *)

(** The prompt [_build_choice_generation_prompt] builds from a state. *)
Definition choice_prompt (s : GameState) : result prompt :=
  result_bind
    (result_map (fun choice => getitem choice "description")
                (last_n 3 (choices_made s)))
    (fun previous =>
       Returned (ChoicePrompt (name (scenario s)) (current_situation s) previous)).

(** A recorded choice that the prompt builders can read. *)
Definition has_description (choice : json) : bool :=
  match getitem choice "description" with
  | Returned _ => true
  | Raised _ => false
  end.

(** The request [generate_choices] sends for a prompt, the reply the
    service gives to it, and the engine once it has been answered. *)
Definition choice_request (e : GameEngine) (p : prompt) : request :=
  {| req_model := model (ai_client e); req_prompt := p; max_tokens := 500 |}.

Definition choice_reply (e : GameEngine) (p : prompt) : reply :=
  next_reply (ai_client e) (choice_request e p).

Definition asked (e : GameEngine) (r : request) : GameEngine :=
  {| ai_client := fst (create (ai_client e) r);
     current_state := current_state e;
     _active := _active e;
     ui := option_map stop_loading (option_map start_loading (ui e)) |}.

(** What [get_available_choices] makes of a reply. *)
Definition choices_of_reply (r : reply) : json :=
  match r with
  | Failure _ => _get_fallback_choices
  | Content text => _parse_ai_choices text
  end.

(** The replies on which [get_available_choices] gives the fallback
    choices: a failed call, a text that is not JSON, and JSON that is not
    an object. *)
Definition falls_back (r : reply) : bool :=
  match r with
  | Failure _ => true
  | Content (Undecodable _) => true
  | Content (Decodable (JObject _)) => false
  | Content (Decodable _) => true
  end.

(** A value of length zero: the empty [list], [str] or [dict]. *)
Definition empty_sequence (v : json) : bool :=
  match v with
  | JArray [] => true
  | JString EmptyString => true
  | JObject [] => true
  | _ => false
  end.

(** The replies that hold no option: an object without [choices], or with
    a value of length zero under it. *)
Definition offers_nothing (r : reply) : bool :=
  match r with
  | Content (Decodable (JObject entries)) =>
      match dict_get "choices" entries with
      | None => true
      | Some listed => empty_sequence listed
      end
  | _ => false
  end.

(** The replies that leave a caller testing [if not choices] with nothing
    to present: an object without [choices], or with a false value under
    it. *)
Definition presents_nothing (r : reply) : bool :=
  match r with
  | Content (Decodable (JObject entries)) =>
      match dict_get "choices" entries with
      | None => true
      | Some listed => negb (truthy listed)
      end
  | _ => false
  end.

(** The wording of the specification: a text that can be interpreted as a
    structured list of options under key [choices], read at its widest: it
    decodes to an object that holds a list under [choices]. *)
Definition listed_options (text : content) : option (list json) :=
  match text with
  | Decodable (JObject entries) =>
      match dict_get "choices" entries with
      | Some (JArray items) => Some items
      | _ => None
      end
  | _ => None
  end.

(** The identifiers of the options of a computed set, in order. *)
Definition option_ids (choices : json) : result (list json) :=
  result_bind (iterate choices) (result_map (fun choice => getitem choice "id")).

(** The request [generate_consequence] sends for a prompt and the reply
    the service gives to it. *)
Definition consequence_request (e : GameEngine) (p : prompt) : request :=
  {| req_model := model (ai_client e); req_prompt := p; max_tokens := 800 |}.

Definition consequence_reply (e : GameEngine) (p : prompt) : reply :=
  next_reply (ai_client e) (consequence_request e p).

(** The replies on which [generate_consequence] raises. *)
Definition fails (r : reply) : bool :=
  match r with
  | Failure _ => true
  | Content (Undecodable _) => true
  | Content (Decodable _) => false
  end.

(** What a call gives on a session that is over. *)
Definition nothing (c : call) : outcome :=
  match c with
  | GetAvailableChoices => Choices (Returned (JArray []))
  | MakeChoice _ => Made (Returned false)
  end.

(** *** Sample runs *)

(** A service that answers its n-th request with the n-th reply of a
    script, and fails once the script is over. *)
Definition scripted (replies : list reply) : nat -> request -> reply :=
  fun n _ => nth n replies (Failure "connection refused").

(** A fresh engine on which [library_alexandria] has been started. *)
Definition started (service : nat -> request -> reply) : GameEngine :=
  fst (start_scenario "library_alexandria" (new_engine service)).

Definition json_reply (v : json) : reply := Content (Decodable v).

(** A set of two options, as the prompt asks for them. *)
Definition two_options : json :=
  JObject
    [ ("choices",
       JArray
         [ JObject [ ("id", JString "choice_1");
                     ("description", JString "Evacuate the scrolls");
                     ("potential_impact", JString "Saves the collection") ];
           JObject [ ("id", JString "choice_2");
                     ("description", JString "Fight the fire");
                     ("potential_impact", JString "Risks the staff") ] ]) ].

(** The consequence record of the specification's example. *)
Definition ending_record : json :=
  JObject
    [ ("new_situation", JString "X");
      ("alterations", JArray [JString "A"]);
      ("is_ending", JBool true) ].

(** A rendering to run the samples with; they only format text. *)
Definition sample_repr (v : json) : string := "<value>".

(** The engine once [make_choice] has recorded the chosen option. *)
Definition recorded (e : GameEngine) (s : GameState) (chosen_option : json)
  : GameEngine :=
  {| ai_client := ai_client e;
     current_state :=
       Some {| scenario := scenario s;
               current_situation := current_situation s;
               choices_made := choices_made s ++ [chosen_option];
               timeline_alterations := timeline_alterations s;
               is_complete := is_complete s |};
     _active := _active e;
     ui := ui e |}.

(** Two engines that record the same choices. *)
Definition same_choices (e e' : GameEngine) : Prop :=
  option_map choices_made (current_state e')
  = option_map choices_made (current_state e).

(** A computation that leaves the recorded choices alone, however it ends. *)
Definition keeps_choices {A} (m : M A) : Prop :=
  forall e e' r, m e = (e', r) -> same_choices e e'.

(** A session brought to its end: the first option is chosen and the
    service answers with the ending record. *)
Definition completed : GameEngine :=
  fst (make_choice sample_repr "choice_1"
         (started (scripted [json_reply two_options; json_reply ending_record]))).

(** The request [generate_consequence] sends from a client. *)
Definition consequence_request_of (c : AIClient) (p : prompt) : request :=
  {| req_model := model c; req_prompt := p; max_tokens := 800 |}.

(** *** The consequence step *)

(** What the [try] block of [make_choice] reads in the value
    [generate_consequence] returned: the new situation, the alterations to
    append and the ending flag; [None] when one of the reads raises (the
    last one cannot, once the first has not: the value is a [dict]). *)
Definition read_consequence (consequence : json) : option (json * list json * bool) :=
  match getitem consequence "new_situation" with
  | Raised _ => None
  | Returned new_situation =>
      match result_bind (get_method consequence "alterations" (JArray [])) iterate with
      | Raised _ => None
      | Returned items =>
          match get_method consequence "is_ending" (JBool false) with
          | Raised _ => None
          | Returned ending => Some (new_situation, items, truthy ending)
          end
      end
  end.

(** The engine once the consequence request has been answered and the
    session set to [s']. *)
Definition answered (e : GameEngine) (p : prompt) (s' : GameState) : GameEngine :=
  {| ai_client := fst (create (ai_client e) (consequence_request e p));
     current_state := Some s';
     _active := _active e;
     ui := option_map stop_loading (option_map start_loading (ui e)) |}.

(** The session after the fallback consequence for a description. *)
Definition fallen_back (repr : json -> string) (s : GameState) (d : json) : GameState :=
  {| scenario := scenario s;
     current_situation := JString (fallback_situation repr d);
     choices_made := choices_made s;
     timeline_alterations := timeline_alterations s;
     is_complete := is_complete s |}.

(** The session after a consequence that was read. *)
Definition advanced (s : GameState) (x : json) (items : list json) (ending : bool)
  : GameState :=
  {| scenario := scenario s;
     current_situation := x;
     choices_made := choices_made s;
     timeline_alterations := timeline_alterations s ++ items;
     is_complete := if ending then true else is_complete s |}.

(** The session the consequence step leaves, by the reply. *)
Definition after_consequence (repr : json -> string) (s : GameState) (d : json)
           (r : reply) : GameState :=
  match r with
  | Content (Decodable consequence) =>
      match read_consequence consequence with
      | Some (x, items, ending) => advanced s x items ending
      | None => fallen_back repr s d
      end
  | _ => fallen_back repr s d
  end.

(** The session once [make_choice] has recorded the chosen option (the
    state [recorded] holds). *)
Definition chosen (s : GameState) (chosen_option : json) : GameState :=
  {| scenario := scenario s;
     current_situation := current_situation s;
     choices_made := choices_made s ++ [chosen_option];
     timeline_alterations := timeline_alterations s;
     is_complete := is_complete s |}.

(** The prompt [_build_consequence_prompt] builds for a description. *)
Definition consequence_prompt_of (s : GameState) (d : json) : prompt :=
  ConsequencePrompt (name (scenario s)) (current_situation s) d.

(** *** What calls leave in place *)

(** The session only grows: same scenario, choices and alterations added at
    the end, a completion flag that is not taken back; and a session is
    neither created nor dropped. *)
Definition grows (e e' : GameEngine) : Prop :=
  match current_state e, current_state e' with
  | Some s, Some s' =>
      scenario s' = scenario s
      /\ (exists added, choices_made s' = choices_made s ++ added)
      /\ (exists added, timeline_alterations s' = timeline_alterations s ++ added)
      /\ (is_complete s = true -> is_complete s' = true)
  | None, None => True
  | _, _ => False
  end.

(** The client is the same but for the calls of [create] it has made
    since, at most [n] of them. *)
Definition sent_since (n : nat) (e e' : GameEngine) : Prop :=
  model (ai_client e') = model (ai_client e)
  /\ service (ai_client e') = service (ai_client e)
  /\ exists requests,
       sent (ai_client e') = sent (ai_client e) ++ requests
       /\ List.length requests <= n.

(** The loading indicator is as it was, or has been stopped. *)
Definition indicator_settled (e e' : GameEngine) : Prop :=
  option_map width (ui e') = option_map width (ui e)
  /\ (ui e' = ui e
      \/ option_map _loading (ui e') = option_map (fun _ => false) (ui e)).

(** The outcomes of a run that are [True] returns of [make_choice]. *)
Definition made (o : outcome) : bool :=
  match o with
  | Made (Returned true) => true
  | _ => false
  end.

(** No call of the run raised. *)
Definition returned (o : outcome) : bool :=
  match o with
  | Choices (Returned _) => true
  | Made (Returned _) => true
  | _ => false
  end.

(** The identifier of an option, when it is a [dict] that has one. *)
Definition has_id (choice_id : string) (choice : json) : bool :=
  match getitem choice "id" with
  | Returned i => eq_str i choice_id
  | Raised _ => false
  end.

Definition readable_id (choice : json) : bool :=
  match getitem choice "id" with
  | Returned _ => true
  | Raised _ => false
  end.

(** The calls of [create] a call of the engine may make at most: one for
    the choices, one more for the consequence. *)
Definition budget (c : call) : nat :=
  match c with
  | GetAvailableChoices => 1
  | MakeChoice _ => 2
  end.

Definition total_budget (calls : list call) : nat :=
  fold_right (fun c n => budget c + n) 0 calls.

(** All of it together, for at most [n] requests. *)
Definition left_in_place (n : nat) (e e' : GameEngine) : Prop :=
  grows e e' /\ _active e' = _active e /\ sent_since n e e'
  /\ indicator_settled e e'.

(** The identifiers of the fallback choices. *)
Definition fallback_ids : list string := ["diplomatic"; "aggressive"; "wait"].

(** An entry the search passes over: its identifier can be read and is not
    the one asked for. *)
Definition passed_over (choice_id : string) (choice : json) : bool :=
  readable_id choice && negb (has_id choice_id choice).

(** The n-th fallback choice. *)
Definition fallback_option (n : nat) : json :=
  match _get_fallback_choices with
  | JArray items => nth n items JNull
  | _ => JNull
  end.

(** *** More sample runs *)

(** A second set of options, with other identifiers. *)
Definition other_options : json :=
  JObject
    [ ("choices",
       JArray
         [ JObject [ ("id", JString "option_a");
                     ("description", JString "Send for Caesar");
                     ("potential_impact", JString "May stop the fire") ] ]) ].

(** A consequence record with [new_situation] alone. *)
Definition bare_record : json :=
  JObject [ ("new_situation", JString "The scrolls are safe.") ].

(** A consequence record whose alterations are a number. *)
Definition odd_record : json :=
  JObject [ ("new_situation", JString "X"); ("alterations", JInt 3) ].

Definition option_described (identifier text : string) : json :=
  JObject [ ("id", JString identifier); ("description", JString text) ].

(** A session four decisions in. *)
Definition seasoned_state : GameState :=
  {| scenario := library_alexandria;
     current_situation := JString "The fire is out.";
     choices_made :=
       [ option_described "choice_1" "first";
         option_described "choice_2" "second";
         option_described "choice_1" "third";
         option_described "choice_3" "fourth" ];
     timeline_alterations := [];
     is_complete := false |}.

Definition seasoned : GameEngine :=
  {| ai_client := new_client (scripted []);
     current_state := Some seasoned_state;
     _active := true;
     ui := None |}.

(** *** [ui.py]: the numbered scenario menu *)

(** How one pass of the loop of [select_scenario] ends, by the number
    entered: the function returns [None] (exit), returns a key, or goes
    round again. *)
Inductive selection : Type :=
  | Exit
  | Selected (key : string)
  | Again.

(** The dispatch of [select_scenario] on [choice_num], the number read
    from a line of digits. *)
Definition select_by_number (choice_num : nat) : selection :=
  let scenarios := get_scenario_list in
  let scenario_keys := map fst scenarios in
  if Nat.eqb choice_num (List.length scenarios + 1) then Exit
  else if Nat.leb 1 choice_num && Nat.leb choice_num (List.length scenarios)
       then Selected (nth (choice_num - 1) scenario_keys EmptyString)
       else Again.

(** The first of the [two_options]. *)
Definition first_option : json :=
  match two_options with
  | JObject [(_, JArray (o :: _))] => o
  | _ => JNull
  end.

(** The list the [two_options] hold, with its key. *)
Definition two_options_listed : string * json :=
  match two_options with
  | JObject (entry :: _) => entry
  | _ => (EmptyString, JNull)
  end.
(** * Properties *)

(** ** The scenario catalog *)

Lemma dict_get_Some_In {V} (key : string) (d : list (string * V)) (v : V) :
  dict_get key d = Some v -> In (key, v) d.
Proof.
  induction d as [|[k w] d IH]; simpl; [discriminate|].
  destruct (String.eqb_spec k key) as [->|Hne]; intros H.
  - left. now inversion H.
  - right. auto.
Qed.

Lemma dict_get_None_notin {V} (key : string) (d : list (string * V)) :
  dict_get key d = None -> ~ In key (map fst d).
Proof.
  induction d as [|[k w] d IH]; simpl; [tauto|].
  destruct (String.eqb_spec k key) as [->|Hne]; [discriminate|].
  intros H [Hk|Hin]; [congruence | now apply IH].
Qed.

Lemma scenario_eqb_refl (sc : HistoricalScenario) : scenario_eqb sc sc = true.
Proof. unfold scenario_eqb. now rewrite !String.eqb_refl. Qed.

(** Every entry of the catalog is the first one that holds its definition:
    no definition is stored under two keys. *)
Lemma catalog_entries_identified :
  forallb (fun entry =>
             match identifier_of (snd entry) with
             | Some k => String.eqb k (fst entry)
             | None => false
             end) AVAILABLE_SCENARIOS = true.
Proof. vm_compute. reflexivity. Qed.

(** C9. Looking a catalog identifier up gives the definition stored under
    it, whose identifier (the key it is stored under) is the one asked for;
    any other identifier gives [None], the not-found signal.  The lookup is
    a pure function: it has no other outcome and changes nothing. *)
Theorem catalog_get_matches_key (key : string) :
  match dict_get key AVAILABLE_SCENARIOS with
  | Some sc => In (key, sc) AVAILABLE_SCENARIOS /\ identifier_of sc = Some key
  | None => ~ In key (map fst AVAILABLE_SCENARIOS)
  end.
Proof.
  destruct (dict_get key AVAILABLE_SCENARIOS) as [sc|] eqn:Hget.
  - pose proof (dict_get_Some_In _ _ Hget) as Hin. split; [exact Hin|].
    pose proof catalog_entries_identified as Hall.
    rewrite forallb_forall in Hall. specialize (Hall _ Hin). simpl in Hall.
    destruct (identifier_of sc) as [k|]; [|discriminate].
    apply String.eqb_eq in Hall. now subst.
  - now apply dict_get_None_notin.
Qed.

(** ** Starting a scenario *)

Lemma dict_get_notin_None {V} (key : string) (d : list (string * V)) :
  ~ In key (map fst d) -> dict_get key d = None.
Proof.
  induction d as [|[k w] d IH]; simpl; [reflexivity|].
  intros Hnot. destruct (String.eqb_spec k key) as [->|Hne]; [tauto|].
  apply IH. tauto.
Qed.

(** Each entry of the catalog is what a lookup of its key gives. *)
Lemma catalog_entry_get (key : string) (sc : HistoricalScenario) :
  In (key, sc) AVAILABLE_SCENARIOS ->
  dict_get key AVAILABLE_SCENARIOS = Some sc.
Proof.
  unfold AVAILABLE_SCENARIOS. simpl. intros H.
  repeat (destruct H as [H|H]; [inversion H; reflexivity|]).
  contradiction.
Qed.

(** C7. [start_scenario] with the identifier of a catalog entry returns
    [True] and the engine holds an active session on the scenario of that
    entry: the situation is its initial situation, no choice is recorded
    (the decision count is 0), the timeline is empty and the session is
    not complete.  With an identifier that is no key of the catalog it
    returns [False] and leaves the engine as it was, so no session is
    created. *)
Theorem start_scenario_session (scenario_name : string) (e : GameEngine) :
  (forall sc,
     In (scenario_name, sc) AVAILABLE_SCENARIOS ->
     exists e',
       start_scenario scenario_name e = (e', true)
       /\ is_active e' = true
       /\ current_state e'
          = Some {| scenario := sc;
                    current_situation := JString (initial_situation sc);
                    choices_made := [];
                    timeline_alterations := [];
                    is_complete := false |}
       /\ option_map decisions (get_current_state e') = Some 0)
  /\ (~ In scenario_name (map fst AVAILABLE_SCENARIOS) ->
      start_scenario scenario_name e = (e, false)).
Proof.
  split.
  - intros sc Hin. unfold start_scenario. rewrite (@catalog_entry_get _ _ Hin).
    eexists. split; [reflexivity|]. repeat split.
  - intros Hnot. unfold start_scenario. now rewrite (@dict_get_notin_None _ _ _ Hnot).
Qed.

Lemma start_scenario_session_witness :
  let e := new_engine (scripted []) in
  (exists e',
     start_scenario "black_death" e = (e', true)
     /\ is_active e' = true
     /\ current_state e'
        = Some {| scenario := black_death;
                  current_situation := JString (initial_situation black_death);
                  choices_made := [];
                  timeline_alterations := [];
                  is_complete := false |}
     /\ option_map decisions (get_current_state e') = Some 0)
  /\ start_scenario "atlantis" e = (e, false).
Proof.
  intros e. split.
  - apply (proj1 (start_scenario_session "black_death" e)).
    simpl. right. right. right. left. reflexivity.
  - apply (proj2 (start_scenario_session "atlantis" e)).
    simpl. intros H.
    repeat (destruct H as [H|H]; [discriminate|]). exact H.
Defined.

(** ** Reading the session *)

(** A session is active when the engine holds a state that is not complete. *)
Lemma is_active_session (e : GameEngine) :
  is_active e = true ->
  exists s, current_state e = Some s /\ is_complete s = false.
Proof.
  unfold is_active. intros H. apply andb_true_iff in H as [_ H].
  destruct (current_state e) as [s|]; [|discriminate].
  exists s. split; [reflexivity|]. now destruct (is_complete s).
Qed.

Lemma build_choice_prompt (e : GameEngine) (s : GameState) :
  current_state e = Some s ->
  _build_choice_generation_prompt e = (e, choice_prompt s).
Proof.
  intros Hs. unfold _build_choice_generation_prompt, choice_prompt, bind, state, lift, ret.
  rewrite Hs.
  destruct (result_map _ _); reflexivity.
Qed.

Lemma result_map_described (l : list json) :
  forallb has_description l = true ->
  exists ds, result_map (fun choice => getitem choice "description") l = Returned ds.
Proof.
  induction l as [|c l IH]; simpl; intros H.
  - now exists [].
  - apply andb_true_iff in H as [Hc Hl]. unfold has_description in Hc.
    destruct (getitem c "description") as [d|]; [|discriminate].
    destruct (IH Hl) as [ds ->]. now exists (d :: ds).
Qed.

Lemma forallb_skipn {A} (f : A -> bool) (n : nat) (l : list A) :
  forallb f l = true -> forallb f (skipn n l) = true.
Proof.
  revert l. induction n as [|n IH]; intros [|a l]; simpl; auto.
  intros H. apply andb_true_iff in H as [_ H]. auto.
Qed.

(** A session whose recorded choices all carry a description has a choice
    prompt. *)
Lemma described_choice_prompt (s : GameState) :
  forallb has_description (choices_made s) = true ->
  exists p, choice_prompt s = Returned p.
Proof.
  intros H. unfold choice_prompt, last_n.
  destruct (result_map_described _ (forallb_skipn _ (List.length (choices_made s) - 3) _ H))
    as [ds ->].
  simpl. eauto.
Qed.

Lemma get_available_choices_idle (e : GameEngine) :
  match current_state e with
  | Some s => is_complete s = true
  | None => True
  end ->
  get_available_choices e = (e, Returned (JArray [])).
Proof.
  unfold get_available_choices.
  destruct (current_state e) as [s|]; [|reflexivity].
  now intros ->.
Qed.

Lemma get_available_choices_active (e : GameEngine) (s : GameState) :
  current_state e = Some s ->
  is_complete s = false ->
  get_available_choices e =
    match choice_prompt s with
    | Returned p =>
        (asked e (choice_request e p), Returned (choices_of_reply (choice_reply e p)))
    | Raised x => (e, Raised x)
    end.
Proof.
  intros Hs Hc. unfold get_available_choices. rewrite Hs, Hc.
  unfold bind at 1. rewrite (build_choice_prompt e Hs).
  destruct (choice_prompt s) as [p|x]; [|reflexivity].
  unfold try_except, bind, with_ui, call_client, ret, generate_choices,
    choice_reply, choices_of_reply, asked, choice_request, create.
  simpl.
  destruct (next_reply (ai_client e) _) as [err|text]; reflexivity.
Qed.

(** [get_available_choices] never touches the session, whatever happens. *)
Lemma get_available_choices_session (e e' : GameEngine) (r : result json) :
  get_available_choices e = (e', r) -> current_state e' = current_state e.
Proof.
  destruct (current_state e) as [s|] eqn:Hs.
  - destruct (is_complete s) eqn:Hc.
    + rewrite get_available_choices_idle by (rewrite Hs; exact Hc).
      intros H. inversion H. now subst.
    + rewrite (get_available_choices_active e Hs Hc).
      destruct (choice_prompt s); intros H; inversion H; subst; simpl; auto.
  - rewrite get_available_choices_idle by (now rewrite Hs).
    intros H. inversion H. now subst.
Qed.

(** ** The choices offered *)

(** The fallback choices are three, with these identifiers in this order. *)
Lemma fallback_choices_ids :
  option_ids _get_fallback_choices
  = Returned [JString "diplomatic"; JString "aggressive"; JString "wait"].
Proof. reflexivity. Qed.

(** C1, as stated, fails: the service answers [{"choices": 5}], which holds
    no list of options under [choices]; [get_available_choices] returns the
    5 it found there, not the fallback choices. *)
Lemma choices_not_a_list_returned_as_is :
  let text := Decodable (JObject [("choices", JInt 5)]) in
  let e := started (fun _ _ => Content text) in
  is_active e = true
  /\ listed_options text = None
  /\ snd (get_available_choices e) = Returned (JInt 5)
  /\ snd (get_available_choices e) <> Returned _get_fallback_choices.
Proof.
  repeat split; try reflexivity.
  vm_compute. discriminate.
Qed.

(** C1, amended. On an active session whose choice prompt builds (every
    recorded choice has a description), when the choice-generation call
    raises, or the text returned is not JSON, or it decodes to something
    that is not an object, [get_available_choices] returns the fallback
    choices, which are exactly [diplomatic], [aggressive] and [wait] with
    their fixed texts; nothing is raised. *)
Theorem get_available_choices_fallback (e : GameEngine) (s : GameState) (p : prompt) :
  current_state e = Some s ->
  is_complete s = false ->
  choice_prompt s = Returned p ->
  falls_back (choice_reply e p) = true ->
  get_available_choices e
  = (asked e (choice_request e p), Returned _get_fallback_choices)
  /\ option_ids _get_fallback_choices
     = Returned [JString "diplomatic"; JString "aggressive"; JString "wait"].
Proof.
  intros Hs Hc Hp Hr. split; [|reflexivity].
  rewrite (get_available_choices_active e Hs Hc), Hp.
  f_equal. f_equal. unfold choices_of_reply.
  destruct (choice_reply e p) as [err|[err|data]]; try reflexivity.
  destruct data; try reflexivity. discriminate.
Qed.

Lemma get_available_choices_fallback_witness :
  let e := started (scripted []) in
  let p := ChoicePrompt "The Library of Alexandria"
             (JString (initial_situation library_alexandria)) [] in
  get_available_choices e
  = (asked e (choice_request e p), Returned _get_fallback_choices)
  /\ option_ids _get_fallback_choices
     = Returned [JString "diplomatic"; JString "aggressive"; JString "wait"].
Proof.
  intros e p.
  apply (@get_available_choices_fallback e (new_state library_alexandria) p);
    reflexivity.
Defined.

(** C4, as stated, fails: on an active session the service answers [{}];
    [get_available_choices] returns the empty list. *)
Lemma active_session_without_choices :
  let e := started (fun _ _ => json_reply (JObject [])) in
  is_active e = true
  /\ snd (get_available_choices e) = Returned (JArray []).
Proof. split; reflexivity. Qed.

(** C4, amended. With no session, or a complete one, [get_available_choices]
    returns the empty list and the engine is as before: no request is
    sent.  On an active session whose choice prompt builds it sends one
    request and returns the fallback choices when the call fails, the text
    is not JSON or decodes to something that is not an object, and
    otherwise the value the object holds under [choices], as it is, or the
    empty list when it holds none.  The result has length zero (an empty
    list, string or dict) exactly when the reply is an object without
    [choices] or with a value of length zero under it, and is false for a
    caller's [if not choices] exactly when the reply is an object without
    [choices] or with a false value under it. *)
Theorem get_available_choices_empty (e : GameEngine) :
  match current_state e with
  | None => get_available_choices e = (e, Returned (JArray []))
  | Some s =>
      if is_complete s then get_available_choices e = (e, Returned (JArray []))
      else
        forall p, choice_prompt s = Returned p ->
        let choices :=
          match choice_reply e p with
          | Content (Decodable (JObject entries)) =>
              match dict_get "choices" entries with
              | Some listed => listed
              | None => JArray []
              end
          | _ => _get_fallback_choices
          end in
        get_available_choices e
        = (asked e (choice_request e p), Returned choices)
        /\ sent (ai_client (asked e (choice_request e p)))
           = sent (ai_client e) ++ [choice_request e p]
        /\ (empty_sequence choices = true
            <-> offers_nothing (choice_reply e p) = true)
        /\ (truthy choices = false
            <-> presents_nothing (choice_reply e p) = true)
  end.
Proof.
  destruct (current_state e) as [s|] eqn:Hs.
  - destruct (is_complete s) eqn:Hc.
    + apply get_available_choices_idle. now rewrite Hs.
    + intros p Hp choices.
      rewrite (get_available_choices_active e Hs Hc), Hp.
      assert (Heq : choices_of_reply (choice_reply e p) = choices).
      { unfold choices, choices_of_reply, _parse_ai_choices, get_method.
        destruct (choice_reply e p) as [err|[err|data]]; try reflexivity.
        destruct data; try reflexivity.
        destruct (dict_get "choices" entries); reflexivity. }
      rewrite Heq. split; [reflexivity|]. split; [reflexivity|].
      unfold choices, offers_nothing, presents_nothing.
      destruct (choice_reply e p) as [err|[err|data]];
        try (split; split; discriminate).
      destruct data; try (split; split; discriminate).
      destruct (dict_get "choices" entries) as [listed|].
      * split; [reflexivity|]. destruct (truthy listed); split; discriminate || reflexivity.
      * split; split; reflexivity.
  - apply get_available_choices_idle. now rewrite Hs.
Qed.

Lemma get_available_choices_empty_witness :
  let e := started (scripted [json_reply two_options]) in
  let p := ChoicePrompt "The Library of Alexandria"
             (JString (initial_situation library_alexandria)) [] in
  let choices :=
    match choice_reply e p with
    | Content (Decodable (JObject entries)) =>
        match dict_get "choices" entries with
        | Some listed => listed
        | None => JArray []
        end
    | _ => _get_fallback_choices
    end in
  get_available_choices e = (asked e (choice_request e p), Returned choices)
  /\ sent (ai_client (asked e (choice_request e p)))
     = sent (ai_client e) ++ [choice_request e p]
  /\ (empty_sequence choices = true <-> offers_nothing (choice_reply e p) = true)
  /\ (truthy choices = false <-> presents_nothing (choice_reply e p) = true).
Proof.
  intros e p.
  exact (get_available_choices_empty e p eq_refl).
Defined.

(** What a caller gets from replies that hold an empty string or an empty
    dict under [choices]: that value, not a list. *)
Example get_available_choices_empty_string :
  snd (get_available_choices
         (started (scripted [json_reply (JObject [("choices", JString EmptyString)])])))
  = Returned (JString EmptyString)
  /\ snd (get_available_choices
            (started (scripted [json_reply (JObject [("choices", JObject [])])])))
     = Returned (JObject []).
Proof. split; reflexivity. Qed.

(** ** Making a choice *)

Lemma first_match_found (choice_id : string) (items : list json) (o : json) :
  first_match choice_id items = Returned (Some o) ->
  In o items /\ getitem o "id" = Returned (JString choice_id) /\ truthy o = true.
Proof.
  induction items as [|c items IH]; simpl; [discriminate|].
  destruct (getitem c "id") as [i|x] eqn:Hi; simpl; [|discriminate].
  destruct (eq_str i choice_id) eqn:Heq.
  - intros H. inversion H. subst c. split; [now left|].
    destruct i; try discriminate. simpl in Heq. apply String.eqb_eq in Heq. subst s.
    split; [exact Hi|].
    destruct o; try discriminate. simpl in Hi.
    destruct entries; [discriminate|reflexivity].
  - intros H. destruct (IH H) as (Hin & Hid & Ht). now split; [right|split].
Qed.

Lemma find_choice_found (available_choices : json) (choice_id : string) (o : json) :
  find_choice available_choices choice_id = Returned (Some o) ->
  getitem o "id" = Returned (JString choice_id) /\ truthy o = true.
Proof.
  unfold find_choice. destruct (iterate available_choices) as [items|]; simpl;
    [|discriminate].
  intros H. now apply first_match_found in H.
Qed.

(** The search finds nothing in a list of options that all have an
    identifier other than the one asked for. *)
Lemma find_choice_no_match (items : list json) (choice_id : string) :
  Forall (fun choice => exists i, getitem choice "id" = Returned i
                                  /\ eq_str i choice_id = false) items ->
  find_choice (JArray items) choice_id = Returned None.
Proof.
  unfold find_choice. simpl.
  induction 1 as [|c items (i & Hi & Hne) _ IH]; simpl; [reflexivity|].
  now rewrite Hi; simpl; rewrite Hne.
Qed.

Lemma same_choices_refl (e : GameEngine) : same_choices e e.
Proof. reflexivity. Qed.

Lemma same_choices_trans (e1 e2 e3 : GameEngine) :
  same_choices e1 e2 -> same_choices e2 e3 -> same_choices e1 e3.
Proof. unfold same_choices. congruence. Qed.

Lemma keeps_ret {A} (a : A) : keeps_choices (ret a).
Proof. intros e e' r H. inversion H. apply same_choices_refl. Qed.

Lemma keeps_lift {A} (x : result A) : keeps_choices (lift x).
Proof. intros e e' r H. inversion H. apply same_choices_refl. Qed.

Lemma keeps_bind {A B} (m : M A) (k : A -> M B) :
  keeps_choices m -> (forall a, keeps_choices (k a)) -> keeps_choices (bind m k).
Proof.
  intros Hm Hk e e' r. unfold bind.
  destruct (m e) as [e1 [a|x]] eqn:He1; intros H.
  - eapply same_choices_trans; [eapply Hm; eauto | eapply Hk; eauto].
  - inversion H. subst. eapply Hm; eauto.
Qed.

Lemma keeps_try_except {A} (body handler : M A) :
  keeps_choices body -> keeps_choices handler ->
  keeps_choices (try_except body handler).
Proof.
  intros Hb Hh e e' r. unfold try_except.
  destruct (body e) as [e1 [a|x]] eqn:He1; intros H.
  - inversion H. subst. eapply Hb; eauto.
  - eapply same_choices_trans; [eapply Hb; eauto | eapply Hh; eauto].
Qed.

Lemma keeps_with_ui (f : ConsoleUI -> ConsoleUI) : keeps_choices (with_ui f).
Proof. intros e e' r H. inversion H. reflexivity. Qed.

Lemma keeps_call_client {A} (f : AIClient -> AIClient * result A) :
  keeps_choices (call_client f).
Proof.
  intros e e' r. unfold call_client. destruct (f (ai_client e)).
  intros H. inversion H. reflexivity.
Qed.

Lemma keeps_update_state (f : GameState -> GameState) :
  (forall s, choices_made (f s) = choices_made s) ->
  keeps_choices (update_state f).
Proof.
  intros Hf e e' r. unfold update_state, same_choices.
  destruct (current_state e) as [s|] eqn:Hs; intros H; inversion H; subst; simpl.
  - now rewrite Hf.
  - now rewrite Hs.
Qed.

Create HintDb keeps.

#[local] Hint Resolve keeps_ret keeps_lift keeps_with_ui keeps_call_client : keeps.

Lemma keeps_apply_consequence (p : prompt) : keeps_choices (apply_consequence p).
Proof.
  unfold apply_consequence, set_current_situation, extend_timeline, set_is_complete.
  repeat (apply keeps_bind; [|intros ?]); auto with keeps;
    try (apply keeps_update_state; reflexivity).
  destruct (truthy _); [apply keeps_update_state; reflexivity | apply keeps_ret].
Qed.

Section MakeChoice.

Variable repr : json -> string.

Lemma keeps_fallback_consequence (o : json) :
  keeps_choices (fallback_consequence repr o).
Proof.
  unfold fallback_consequence, set_current_situation.
  repeat (apply keeps_bind; [|intros ?]); auto with keeps.
  apply keeps_update_state; reflexivity.
Qed.

(** [make_choice] step by step: the options are computed, the option
    searched, recorded, its description read for the prompt, and the
    consequence applied or its fallback. *)
Lemma make_choice_steps (choice_id : string) (e : GameEngine) :
  make_choice repr choice_id e
  = match current_state e with
    | None => (e, Returned false)
    | Some s =>
        let (e1, r) := get_available_choices e in
        match r with
        | Raised x => (e1, Raised x)
        | Returned v =>
            match find_choice v choice_id with
            | Raised x => (e1, Raised x)
            | Returned None => (e1, Returned false)
            | Returned (Some o) =>
                match getitem o "description" with
                | Raised x => (recorded e1 s o, Raised x)
                | Returned d =>
                    match try_except
                            (apply_consequence
                               (ConsequencePrompt (name (scenario s))
                                                  (current_situation s) d))
                            (fallback_consequence repr o) (recorded e1 s o) with
                    | (e3, Returned _) => (e3, Returned true)
                    | (e3, Raised x) => (e3, Raised x)
                    end
                end
            end
        end
    end.
Proof.
  unfold make_choice.
  destruct (current_state e) as [s|] eqn:Hs; [|reflexivity].
  unfold bind at 1.
  destruct (get_available_choices e) as [e1 [v|x]] eqn:Hget; [|reflexivity].
  pose proof (get_available_choices_session e Hget) as Hs1. rewrite Hs in Hs1.
  unfold bind at 1. unfold lift at 1.
  destruct (find_choice v choice_id) as [[o|]|x] eqn:Hfind; try reflexivity.
  destruct (find_choice_found _ _ Hfind) as [_ Ht]. rewrite Ht.
  simpl negb. cbv iota.
  destruct e1 as [c1 st1 a1 u1]. simpl in Hs1. subst st1.
  unfold append_choice, update_state, _build_consequence_prompt, bind, state, lift, ret.
  simpl. unfold recorded. simpl.
  destruct (getitem o "description") as [d|x]; [|reflexivity].
  destruct (try_except _ _ _) as [e3 [[]|x]]; reflexivity.
Qed.

(** The consequence step when [generate_consequence] raises: the handler
    writes the fallback situation and nothing else of the session moves. *)
Lemma consequence_failure (e : GameEngine) (s : GameState) (p : prompt) (o d : json) :
  current_state e = Some s ->
  getitem o "description" = Returned d ->
  fails (consequence_reply e p) = true ->
  try_except (apply_consequence p) (fallback_consequence repr o) e
  = ({| ai_client := fst (create (ai_client e) (consequence_request e p));
        current_state :=
          Some {| scenario := scenario s;
                  current_situation := JString (fallback_situation repr d);
                  choices_made := choices_made s;
                  timeline_alterations := timeline_alterations s;
                  is_complete := is_complete s |};
        _active := _active e;
        ui := option_map stop_loading (option_map start_loading (ui e)) |},
     Returned tt).
Proof.
  intros Hs Hd Hr. destruct e as [c st a u]. simpl in Hs. subst st.
  unfold consequence_reply, consequence_request in Hr. simpl in Hr.
  unfold try_except, apply_consequence, fallback_consequence, bind, with_ui,
    call_client, generate_consequence, create, lift, set_current_situation,
    update_state, consequence_request.
  simpl.
  destruct (next_reply c _) as [err|[err|data]]; try discriminate;
    simpl; rewrite Hd; reflexivity.
Qed.

(** The consequence step on a well-formed ending record. *)
Lemma consequence_ending (e : GameEngine) (s : GameState) (p : prompt) (o : json)
      (entries : list (string * json)) (x : json) (changes : list json) :
  current_state e = Some s ->
  consequence_reply e p = Content (Decodable (JObject entries)) ->
  dict_get "new_situation" entries = Some x ->
  dict_get "alterations" entries = Some (JArray changes) ->
  dict_get "is_ending" entries = Some (JBool true) ->
  try_except (apply_consequence p) (fallback_consequence repr o) e
  = ({| ai_client := fst (create (ai_client e) (consequence_request e p));
        current_state :=
          Some {| scenario := scenario s;
                  current_situation := x;
                  choices_made := choices_made s;
                  timeline_alterations := timeline_alterations s ++ changes;
                  is_complete := true |};
        _active := _active e;
        ui := option_map stop_loading (option_map start_loading (ui e)) |},
     Returned tt).
Proof.
  intros Hs Hr Hx Hch Hend. destruct e as [c st a u]. simpl in Hs. subst st.
  unfold consequence_reply, consequence_request in Hr. simpl in Hr.
  unfold try_except, apply_consequence, fallback_consequence, bind, with_ui,
    call_client, generate_consequence, create, lift, set_current_situation,
    extend_timeline, set_is_complete, update_state, consequence_request,
    getitem, get_method.
  simpl. rewrite Hr. simpl. rewrite Hx. simpl. rewrite Hch. simpl.
  rewrite Hend. reflexivity.
Qed.

(** C2. On an active session, when the identifier matches an option of the
    set computed inside [make_choice] and the consequence call fails (the
    service call raises, or its text is not JSON), [make_choice] returns
    [True] without raising; the situation becomes the fallback sentence
    around the description of the matched option, the timeline is as it
    was and the session is still not complete. *)
Theorem make_choice_consequence_failure
        (choice_id : string) (e e1 : GameEngine) (s : GameState) (v o d : json) :
  current_state e = Some s ->
  is_complete s = false ->
  get_available_choices e = (e1, Returned v) ->
  find_choice v choice_id = Returned (Some o) ->
  getitem o "description" = Returned d ->
  fails (consequence_reply e1
           (ConsequencePrompt (name (scenario s)) (current_situation s) d)) = true ->
  exists e' s',
    make_choice repr choice_id e = (e', Returned true)
    /\ current_state e' = Some s'
    /\ current_situation s'
       = JString ("Your choice to '" ++ py_str repr d
                  ++ "' has created ripple effects through history...")
    /\ timeline_alterations s' = timeline_alterations s
    /\ is_complete s' = false.
Proof.
  intros Hs Hc Hget Hfind Hd Hr.
  rewrite make_choice_steps, Hs, Hget, Hfind, Hd.
  erewrite consequence_failure; [|reflexivity|exact Hd|exact Hr].
  do 2 eexists. split; [reflexivity|]. simpl. repeat split. exact Hc.
Qed.

(** C3. On an active session, when the identifier matches an option of the
    set computed inside [make_choice] and the consequence call yields a
    record with [new_situation] X, [alterations] the one-element list of A
    and [is_ending] true, [make_choice] returns [True]; the situation
    becomes X, A is appended after the alterations already in the timeline
    and the session is complete. *)
Theorem make_choice_ending
        (choice_id : string) (e e1 : GameEngine) (s : GameState) (v o d : json)
        (entries : list (string * json)) (X A : string) :
  current_state e = Some s ->
  is_complete s = false ->
  get_available_choices e = (e1, Returned v) ->
  find_choice v choice_id = Returned (Some o) ->
  getitem o "description" = Returned d ->
  consequence_reply e1
    (ConsequencePrompt (name (scenario s)) (current_situation s) d)
  = Content (Decodable (JObject entries)) ->
  dict_get "new_situation" entries = Some (JString X) ->
  dict_get "alterations" entries = Some (JArray [JString A]) ->
  dict_get "is_ending" entries = Some (JBool true) ->
  exists e' s',
    make_choice repr choice_id e = (e', Returned true)
    /\ current_state e' = Some s'
    /\ current_situation s' = JString X
    /\ timeline_alterations s' = timeline_alterations s ++ [JString A]
    /\ is_complete s' = true
    /\ is_active e' = false.
Proof.
  intros Hs Hc Hget Hfind Hd Hr HX HA Hend.
  rewrite make_choice_steps, Hs, Hget, Hfind, Hd.
  erewrite consequence_ending; [|reflexivity|exact Hr|exact HX|exact HA|exact Hend].
  do 2 eexists. split; [reflexivity|]. simpl. repeat split.
  unfold is_active. simpl. apply andb_false_r.
Qed.

(** The search finds nothing in an option set whose entries all have an
    identifier that can be read and is not the one asked for. *)
Lemma find_choice_passed_over (v : json) (items : list json) (choice_id : string) :
  iterate v = Returned items ->
  forallb (passed_over choice_id) items = true ->
  find_choice v choice_id = Returned None.
Proof.
  unfold find_choice. intros ->. simpl.
  induction items as [|c items IH]; simpl; [reflexivity|].
  intros H. apply andb_true_iff in H as [Hc Hall].
  unfold passed_over, readable_id, has_id in Hc.
  destruct (getitem c "id") as [i|x]; [|discriminate]. simpl in *.
  destruct (eq_str i choice_id); [discriminate|]. auto.
Qed.

(** C5, as stated, fails: the option set computed has one entry, without
    [id]; the identifier matches no option of it, and [make_choice] raises
    [KeyError] where the claim has it return [False]. *)
Lemma unmatched_choice_raises :
  let options := JObject [("choices", JArray [JObject [("description", JString "d")]])] in
  let e := started (scripted [json_reply options]) in
  exists e1 items,
    get_available_choices e = (e1, Returned (JArray items))
    /\ existsb (has_id "choice_1") items = false
    /\ snd (make_choice sample_repr "choice_1" e) = Raised (KeyError "id")
    /\ snd (make_choice sample_repr "choice_1" e) <> Returned false.
Proof.
  do 2 eexists. split; [reflexivity|]. split; [reflexivity|].
  split; [reflexivity|]. vm_compute. discriminate.
Qed.

(** C5, amended. When no session is held, or the option set [make_choice]
    computes can be iterated and each of its entries has an identifier
    that can be read and is not the one asked for, [make_choice] returns
    [False] and the session (situation, choices made, timeline, completion
    flag) is exactly as before. *)
Theorem make_choice_no_match (choice_id : string) (e : GameEngine) :
  current_state e = None
  \/ (exists e1 v items,
        get_available_choices e = (e1, Returned v)
        /\ iterate v = Returned items
        /\ forallb (passed_over choice_id) items = true) ->
  exists e',
    make_choice repr choice_id e = (e', Returned false)
    /\ current_state e' = current_state e.
Proof.
  intros [Hnone|(e1 & v & items & Hget & Hit & Hall)]; rewrite make_choice_steps.
  - rewrite Hnone. now exists e.
  - destruct (current_state e) as [s|] eqn:Hs; [|now exists e].
    rewrite Hget, (@find_choice_passed_over v items choice_id Hit Hall).
    exists e1. split; [reflexivity|].
    rewrite <- Hs. now apply get_available_choices_session in Hget.
Qed.

(** What [make_choice] has done when it returns. *)
Lemma make_choice_returned (choice_id : string) (e e' : GameEngine) (b : bool) :
  make_choice repr choice_id e = (e', Returned b) ->
  if b then
    exists s s' e1 v o d,
      current_state e = Some s
      /\ get_available_choices e = (e1, Returned v)
      /\ find_choice v choice_id = Returned (Some o)
      /\ getitem o "description" = Returned d
      /\ current_state e' = Some s'
      /\ choices_made s' = choices_made s ++ [o]
  else current_state e' = current_state e.
Proof.
  rewrite make_choice_steps.
  destruct (current_state e) as [s|] eqn:Hs.
  2:{ intros H. inversion H. subst. exact Hs. }
  destruct (get_available_choices e) as [e1 [v|x]] eqn:Hget; [|discriminate].
  pose proof (get_available_choices_session e Hget) as Hs1. rewrite Hs in Hs1.
  destruct (find_choice v choice_id) as [[o|]|x] eqn:Hfind; [| |discriminate].
  - destruct (getitem o "description") as [d|x] eqn:Hd; [|discriminate].
    destruct (try_except _ _ (recorded e1 s o)) as [e3 [[]|x]] eqn:Htry;
      [|discriminate].
    intros H. inversion H. subst e3 b.
    pose proof (keeps_try_except (keeps_apply_consequence _)
                  (keeps_fallback_consequence o) _ Htry) as Hk.
    unfold same_choices in Hk. simpl in Hk.
    destruct (current_state e') as [s'|]; [|discriminate].
    inversion Hk. exists s, s', e1, v, o, d. repeat split; assumption.
  - intros H. inversion H. subst. exact Hs1.
Qed.

(** C10. When [make_choice] returns [True], through the consequence or
    through its fallback, the choices made are those before followed by
    the matched option, one more decision; when it returns [False] they
    are unchanged. *)
Theorem make_choice_history (choice_id : string) (e e' : GameEngine) (b : bool) :
  make_choice repr choice_id e = (e', Returned b) ->
  if b then
    exists s s' e1 v o,
      current_state e = Some s
      /\ current_state e' = Some s'
      /\ get_available_choices e = (e1, Returned v)
      /\ find_choice v choice_id = Returned (Some o)
      /\ choices_made s' = choices_made s ++ [o]
      /\ option_map decisions (get_current_state e')
         = option_map (fun st => S (decisions st)) (get_current_state e)
  else
    option_map choices_made (current_state e')
    = option_map choices_made (current_state e).
Proof.
  intros H. apply make_choice_returned in H. destruct b.
  - destruct H as (s & s' & e1 & v & o & d & Hs & Hget & Hfind & _ & Hs' & Hch).
    exists s, s', e1, v, o. repeat split; try assumption.
    unfold get_current_state. rewrite Hs, Hs'. simpl. rewrite Hch.
    rewrite length_app. simpl. f_equal. lia.
  - now rewrite H.
Qed.

(** Calls that return keep every recorded choice readable by the prompt
    builders, from the start of a scenario on. *)
Lemma make_choice_described (choice_id : string) (e e' : GameEngine) (b : bool)
      (s s' : GameState) :
  make_choice repr choice_id e = (e', Returned b) ->
  current_state e = Some s ->
  current_state e' = Some s' ->
  forallb has_description (choices_made s) = true ->
  forallb has_description (choices_made s') = true.
Proof.
  intros H Hs Hs' Hall. apply make_choice_returned in H. destruct b.
  - destruct H as (s0 & s0' & e1 & v & o & d & Hs0 & _ & _ & Hd & Hs0' & Hch).
    rewrite Hs in Hs0. rewrite Hs' in Hs0'. inversion Hs0. inversion Hs0'. subst.
    rewrite Hch, forallb_app, Hall. simpl. unfold has_description. now rewrite Hd.
  - rewrite H, Hs in Hs'. inversion Hs'. now subst.
Qed.

(** On a complete session both calls return at once and change nothing. *)
Lemma perform_complete (c : call) (e : GameEngine) (s : GameState) :
  current_state e = Some s ->
  is_complete s = true ->
  perform repr c e = (e, nothing c).
Proof.
  intros Hs Hc.
  assert (Hidle : get_available_choices e = (e, Returned (JArray []))).
  { apply get_available_choices_idle. now rewrite Hs. }
  destruct c as [|choice_id]; unfold perform.
  - now rewrite Hidle.
  - rewrite make_choice_steps, Hs, Hidle. reflexivity.
Qed.

(** C6. Once the completion flag is true, whatever calls of
    [get_available_choices] and [make_choice] follow, each returns at once
    (the empty list, [False]) and the engine stays exactly as it was: the
    flag is still true, the session is untouched and no request has been
    sent to the service. *)
Theorem complete_session_frozen (calls : list call) (e : GameEngine) (s : GameState) :
  current_state e = Some s ->
  is_complete s = true ->
  run repr calls e = (e, map nothing calls).
Proof.
  intros Hs Hc. induction calls as [|c calls IH]; simpl; [reflexivity|].
  now rewrite (perform_complete c e Hs Hc), IH.
Qed.

End MakeChoice.

Lemma make_choice_consequence_failure_witness :
  let e := started (scripted [json_reply two_options]) in
  exists e' s',
    make_choice sample_repr "choice_1" e = (e', Returned true)
    /\ current_state e' = Some s'
    /\ current_situation s'
       = JString ("Your choice to '" ++ "Evacuate the scrolls"
                  ++ "' has created ripple effects through history...")
    /\ timeline_alterations s' = []
    /\ is_complete s' = false.
Proof.
  intros e.
  eapply (@make_choice_consequence_failure sample_repr "choice_1" e _
            (new_state library_alexandria) _ _ (JString "Evacuate the scrolls"));
    reflexivity.
Defined.

Lemma make_choice_ending_witness :
  let e := started (scripted [json_reply two_options; json_reply ending_record]) in
  exists e' s',
    make_choice sample_repr "choice_2" e = (e', Returned true)
    /\ current_state e' = Some s'
    /\ current_situation s' = JString "X"
    /\ timeline_alterations s' = [] ++ [JString "A"]
    /\ is_complete s' = true
    /\ is_active e' = false.
Proof.
  intros e.
  eapply (@make_choice_ending sample_repr "choice_2" e _
            (new_state library_alexandria) _ _ (JString "Fight the fire")
            _ "X" "A");
    reflexivity.
Defined.

Lemma make_choice_no_match_witness :
  let e := started (scripted [json_reply two_options]) in
  exists e',
    make_choice sample_repr "choice_9" e = (e', Returned false)
    /\ current_state e' = current_state e.
Proof.
  intros e. apply make_choice_no_match. right.
  do 3 eexists. split; [reflexivity|]. split; reflexivity.
Defined.

Lemma make_choice_history_witness :
  let e := started (scripted [json_reply two_options]) in
  let e' := fst (make_choice sample_repr "choice_1" e) in
  exists s s' e1 v o,
    current_state e = Some s
    /\ current_state e' = Some s'
    /\ get_available_choices e = (e1, Returned v)
    /\ find_choice v "choice_1" = Returned (Some o)
    /\ choices_made s' = choices_made s ++ [o]
    /\ option_map decisions (get_current_state e')
       = option_map (fun st => S (decisions st)) (get_current_state e).
Proof.
  intros e e'.
  apply (@make_choice_history sample_repr "choice_1" e e' true).
  reflexivity.
Defined.

Lemma complete_session_frozen_witness :
  run sample_repr [GetAvailableChoices; MakeChoice "choice_1"; GetAvailableChoices]
      completed
  = (completed,
     [Choices (Returned (JArray [])); Made (Returned false);
      Choices (Returned (JArray []))]).
Proof.
  eapply (@complete_session_frozen sample_repr
            [GetAvailableChoices; MakeChoice "choice_1"; GetAvailableChoices]
            completed);
    reflexivity.
Defined.

(** ** The errors of the client *)

(** C8, as stated, fails: a call that fails in transport and a reply that
    is not JSON both make [generate_consequence] raise an exception of the
    one class [Exception]. *)
Lemma consequence_failures_same_class :
  let p := ConsequencePrompt "The Library of Alexandria"
             (JString "The fire spreads.") (JString "Fight the fire") in
  let unreachable := new_client (fun _ _ => Failure "Connection error.") in
  let garbled := new_client (fun _ _ => Content (Undecodable "Expecting value")) in
  exists x1 x2,
    snd (generate_consequence unreachable p) = Raised x1
    /\ snd (generate_consequence garbled p) = Raised x2
    /\ class_of x1 = class_of x2.
Proof. do 2 eexists. repeat split. Qed.

(** What [generate_consequence] comes to, by the reply of the service. *)
Lemma generate_consequence_outcome (c : AIClient) (p : prompt) :
  snd (generate_consequence c p)
  = match next_reply c (consequence_request_of c p) with
    | Failure err =>
        Raised (Exception ("AI consequence generation failed: " ++ err)
                          (ClientError err))
    | Content (Undecodable err) =>
        Raised (Exception ("AI consequence generation failed: " ++ err)
                          (DecodeError err))
    | Content (Decodable value) => Returned value
    end.
Proof.
  unfold generate_consequence, create, consequence_request_of. simpl.
  destruct (next_reply c _) as [err|[err|value]]; reflexivity.
Qed.

(** C8, amended. [generate_consequence] signals its two failures with one
    kind of error: when the service call fails and when the text returned
    is not JSON it raises a plain [Exception] whose message is the fixed
    prefix followed by the text of the cause; the two exceptions differ in
    that text and in the exception they are chained to, not in class.
    [make_choice] handles both alike: once an option with a description is
    matched, either failure gives the same engine (the option recorded,
    the fallback situation, timeline and flag as before, one consequence
    request sent) and the return value [True]. *)
Theorem consequence_failures_alike
        (repr : json -> string) (choice_id : string) (e e1 : GameEngine)
        (s : GameState) (v o d : json) :
  current_state e = Some s ->
  get_available_choices e = (e1, Returned v) ->
  find_choice v choice_id = Returned (Some o) ->
  getitem o "description" = Returned d ->
  let p := ConsequencePrompt (name (scenario s)) (current_situation s) d in
  (forall err,
     consequence_reply e1 p = Failure err ->
     (exists x,
        snd (generate_consequence (ai_client e1) p) = Raised x
        /\ x = Exception ("AI consequence generation failed: " ++ err)
                         (ClientError err)
        /\ class_of x = ExceptionClass)
     /\ make_choice repr choice_id e
        = (answered (recorded e1 s o) p (fallen_back repr (chosen s o) d),
           Returned true))
  /\ (forall err,
        consequence_reply e1 p = Content (Undecodable err) ->
        (exists x,
           snd (generate_consequence (ai_client e1) p) = Raised x
           /\ x = Exception ("AI consequence generation failed: " ++ err)
                            (DecodeError err)
           /\ class_of x = ExceptionClass)
        /\ make_choice repr choice_id e
           = (answered (recorded e1 s o) p (fallen_back repr (chosen s o) d),
              Returned true)).
Proof.
  intros Hs Hget Hfind Hd p.
  assert (Hmake : fails (consequence_reply e1 p) = true ->
                  make_choice repr choice_id e
                  = (answered (recorded e1 s o) p (fallen_back repr (chosen s o) d),
                     Returned true)).
  { intros Hf. rewrite make_choice_steps, Hs, Hget, Hfind, Hd.
    fold p.
    now rewrite (consequence_failure repr (recorded e1 s o) (s := chosen s o)
                   p o eq_refl Hd Hf). }
  split; intros err Hr.
  - split; [|apply Hmake; now rewrite Hr].
    eexists. rewrite generate_consequence_outcome.
    unfold consequence_reply, consequence_request in Hr.
    unfold consequence_request_of. rewrite Hr. repeat split.
  - split; [|apply Hmake; now rewrite Hr].
    eexists. rewrite generate_consequence_outcome.
    unfold consequence_reply, consequence_request in Hr.
    unfold consequence_request_of. rewrite Hr. repeat split.
Qed.

Lemma consequence_failures_alike_witness :
  let unreachable := started (scripted [json_reply two_options]) in
  let garbled := started (scripted [json_reply two_options;
                                    Content (Undecodable "Expecting value")]) in
  let s := new_state library_alexandria in
  let d := JString "Evacuate the scrolls" in
  let p := ConsequencePrompt (name (scenario s)) (current_situation s) d in
  ((exists x,
      snd (generate_consequence
             (ai_client (fst (get_available_choices unreachable))) p) = Raised x
      /\ x = Exception ("AI consequence generation failed: " ++ "connection refused")
                       (ClientError "connection refused")
      /\ class_of x = ExceptionClass)
   /\ make_choice sample_repr "choice_1" unreachable
      = (answered (recorded (fst (get_available_choices unreachable)) s first_option)
           p (fallen_back sample_repr (chosen s first_option) d),
         Returned true))
  /\ ((exists x,
         snd (generate_consequence
                (ai_client (fst (get_available_choices garbled))) p) = Raised x
         /\ x = Exception ("AI consequence generation failed: " ++ "Expecting value")
                          (DecodeError "Expecting value")
         /\ class_of x = ExceptionClass)
      /\ make_choice sample_repr "choice_1" garbled
         = (answered (recorded (fst (get_available_choices garbled)) s first_option)
              p (fallen_back sample_repr (chosen s first_option) d),
            Returned true)).
Proof.
  intros unreachable garbled s d p. split.
  - apply (proj1 (@consequence_failures_alike sample_repr "choice_1" unreachable
                    (fst (get_available_choices unreachable)) s
                    (snd two_options_listed) first_option d
                    eq_refl eq_refl eq_refl eq_refl) "connection refused").
    reflexivity.
  - apply (proj2 (@consequence_failures_alike sample_repr "choice_1" garbled
                    (fst (get_available_choices garbled)) s
                    (snd two_options_listed) first_option d
                    eq_refl eq_refl eq_refl eq_refl) "Expecting value").
    reflexivity.
Defined.

(** A session just started has a choice prompt: nothing is recorded yet. *)
Lemma start_scenario_described (scenario_name : string) (e e' : GameEngine)
      (s : GameState) :
  start_scenario scenario_name e = (e', true) ->
  current_state e' = Some s ->
  forallb has_description (choices_made s) = true.
Proof.
  unfold start_scenario.
  destruct (dict_get scenario_name AVAILABLE_SCENARIOS) as [sc|]; [|discriminate].
  intros H Hs. inversion H. subst e'. simpl in Hs. inversion Hs. reflexivity.
Qed.

(** ** Option sets the search cannot read

    The search and the prompt builder sit outside the [try] blocks of
    [make_choice]: an entry without [id], or a matched option without
    [description], makes it raise [KeyError]. *)

Example make_choice_entry_without_id :
  let options := JObject [("choices", JArray [JObject [("description", JString "d")]])] in
  snd (make_choice sample_repr "choice_1" (started (scripted [json_reply options])))
  = Raised (KeyError "id").
Proof. reflexivity. Qed.

Example make_choice_option_without_description :
  let options := JObject [("choices", JArray [JObject [("id", JString "choice_1")]])] in
  let e' := fst (make_choice sample_repr "choice_1"
                   (started (scripted [json_reply options]))) in
  snd (make_choice sample_repr "choice_1" (started (scripted [json_reply options])))
  = Raised (KeyError "description")
  /\ option_map decisions (get_current_state e') = Some 1
  /\ snd (get_available_choices e') = Raised (KeyError "description").
Proof. repeat split. Qed.

(** * Further properties of the engine *)

(** ** The consequence step, whatever the reply *)

Section ConsequenceStep.

Variable repr : json -> string.

(** The [try] block of [make_choice] with its handler never raises once
    the chosen option has a description: it sends one request and leaves
    the session [after_consequence] describes. *)
Lemma consequence_step (e : GameEngine) (s : GameState) (p : prompt) (o d : json) :
  current_state e = Some s ->
  getitem o "description" = Returned d ->
  try_except (apply_consequence p) (fallback_consequence repr o) e
  = (answered e p (after_consequence repr s d (consequence_reply e p)), Returned tt).
Proof.
  intros Hs Hd.
  destruct (fails (consequence_reply e p)) eqn:Hf.
  - rewrite (consequence_failure repr e p o Hs Hd Hf).
    unfold answered, after_consequence, fallen_back.
    destruct (consequence_reply e p) as [err|[err|v]]; try reflexivity; discriminate.
  - destruct (consequence_reply e p) as [err|[err|v]] eqn:Hr; try discriminate.
    destruct e as [c st a [u|]]; simpl in Hs; subst st;
    unfold consequence_reply, consequence_request in Hr; simpl in Hr;
    unfold answered, after_consequence, read_consequence, advanced, fallen_back,
      consequence_request;
    unfold try_except, apply_consequence, fallback_consequence, bind, with_ui,
      call_client, generate_consequence, create, lift, set_current_situation,
      extend_timeline, set_is_complete, update_state, ret;
    simpl; rewrite Hr; simpl;
    (destruct (getitem v "new_situation") as [x|ex] eqn:Hx; simpl;
     [|rewrite Hd; reflexivity]);
    (destruct (get_method v "alterations" (JArray [])) as [al|ex] eqn:Hal; simpl;
     [|rewrite Hd; reflexivity]);
    (destruct (iterate al) as [items|ex] eqn:Hit; simpl;
     [|rewrite Hd; reflexivity]);
    (destruct (get_method v "is_ending" (JBool false)) as [fl|ex] eqn:Hfl; simpl;
     [|destruct v; try discriminate; simpl in Hfl;
       destruct (dict_get "is_ending" entries); discriminate]);
    destruct (truthy fl); reflexivity.
Qed.

End ConsequenceStep.

Section Calls.

Variable repr : json -> string.

(** [make_choice] on every path. *)
Lemma make_choice_outcome (choice_id : string) (e : GameEngine) :
  make_choice repr choice_id e
  = match current_state e with
    | None => (e, Returned false)
    | Some s =>
        let (e1, r) := get_available_choices e in
        match r with
        | Raised x => (e1, Raised x)
        | Returned v =>
            match find_choice v choice_id with
            | Raised x => (e1, Raised x)
            | Returned None => (e1, Returned false)
            | Returned (Some o) =>
                match getitem o "description" with
                | Raised x => (recorded e1 s o, Raised x)
                | Returned d =>
                    (answered (recorded e1 s o) (consequence_prompt_of s d)
                       (after_consequence repr (chosen s o) d
                          (consequence_reply e1 (consequence_prompt_of s d))),
                     Returned true)
                end
            end
        end
    end.
Proof.
  rewrite make_choice_steps.
  destruct (current_state e) as [s|]; [|reflexivity].
  destruct (get_available_choices e) as [e1 [v|x]]; [|reflexivity].
  destruct (find_choice v choice_id) as [[o|]|x]; try reflexivity.
  destruct (getitem o "description") as [d|x] eqn:Hd; [|reflexivity].
  fold (consequence_prompt_of s d).
  now rewrite (consequence_step repr (recorded e1 s o) (s := chosen s o)
                 (consequence_prompt_of s d) o eq_refl Hd).
Qed.

Lemma after_consequence_keeps (s : GameState) (d : json) (r : reply) :
  scenario (after_consequence repr s d r) = scenario s
  /\ choices_made (after_consequence repr s d r) = choices_made s.
Proof.
  unfold after_consequence.
  destruct r as [err|[err|c]]; try (split; reflexivity).
  destruct (read_consequence c) as [[[x items] ending]|]; split; reflexivity.
Qed.

(** Once an option is matched and has a description, [make_choice] returns
    [True] whatever the service does with the consequence request: it
    raises nothing, keeps the scenario and records the option. *)
Theorem make_choice_matched_returns
        (choice_id : string) (e e1 : GameEngine) (s : GameState) (v o d : json) :
  current_state e = Some s ->
  get_available_choices e = (e1, Returned v) ->
  find_choice v choice_id = Returned (Some o) ->
  getitem o "description" = Returned d ->
  exists e' s',
    make_choice repr choice_id e = (e', Returned true)
    /\ current_state e' = Some s'
    /\ scenario s' = scenario s
    /\ choices_made s' = choices_made s ++ [o].
Proof.
  intros Hs Hget Hfind Hd.
  rewrite make_choice_outcome, Hs, Hget, Hfind, Hd.
  do 2 eexists. split; [reflexivity|]. split; [reflexivity|].
  destruct (after_consequence_keeps (chosen s o) d
              (consequence_reply e1 (consequence_prompt_of s d))) as [Hsc Hch].
  rewrite Hsc, Hch. split; reflexivity.
Qed.

(** A consequence that can be read is applied as read: the situation
    becomes the value under [new_situation], whatever iterating the value
    under [alterations] gives (nothing when the key is absent) is appended
    to the timeline, and the session is complete when the value under
    [is_ending] (false when absent) is true in Python's sense. *)
Theorem make_choice_consequence_applied
        (choice_id : string) (e e1 : GameEngine) (s : GameState) (v o d : json)
        (entries : list (string * json)) (x changes flag : json) (items : list json) :
  current_state e = Some s ->
  get_available_choices e = (e1, Returned v) ->
  find_choice v choice_id = Returned (Some o) ->
  getitem o "description" = Returned d ->
  consequence_reply e1
    (ConsequencePrompt (name (scenario s)) (current_situation s) d)
  = Content (Decodable (JObject entries)) ->
  dict_get "new_situation" entries = Some x ->
  get_method (JObject entries) "alterations" (JArray []) = Returned changes ->
  iterate changes = Returned items ->
  get_method (JObject entries) "is_ending" (JBool false) = Returned flag ->
  exists e' s',
    make_choice repr choice_id e = (e', Returned true)
    /\ current_state e' = Some s'
    /\ current_situation s' = x
    /\ timeline_alterations s' = timeline_alterations s ++ items
    /\ is_complete s' = (truthy flag || is_complete s)%bool.
Proof.
  intros Hs Hget Hfind Hd Hr Hx Hch Hit Hfl.
  rewrite make_choice_outcome, Hs, Hget, Hfind, Hd.
  unfold consequence_prompt_of. rewrite Hr.
  unfold after_consequence, read_consequence, getitem. rewrite Hx, Hch.
  simpl result_bind. rewrite Hit, Hfl.
  do 2 eexists. split; [reflexivity|]. simpl. repeat split.
Qed.

(** A consequence that decodes but cannot be read (no [new_situation], not
    a [dict], or alterations that do not iterate) is handled like a failed
    call: [make_choice] returns [True] with the fallback situation, and the
    timeline and the completion flag are as before. *)
Theorem make_choice_consequence_unreadable
        (choice_id : string) (e e1 : GameEngine) (s : GameState)
        (v o d consequence : json) :
  current_state e = Some s ->
  get_available_choices e = (e1, Returned v) ->
  find_choice v choice_id = Returned (Some o) ->
  getitem o "description" = Returned d ->
  consequence_reply e1
    (ConsequencePrompt (name (scenario s)) (current_situation s) d)
  = Content (Decodable consequence) ->
  (exists x, getitem consequence "new_situation" = Raised x)
  \/ (exists changes x,
        get_method consequence "alterations" (JArray []) = Returned changes
        /\ iterate changes = Raised x) ->
  exists e' s',
    make_choice repr choice_id e = (e', Returned true)
    /\ current_state e' = Some s'
    /\ current_situation s'
       = JString ("Your choice to '" ++ py_str repr d
                  ++ "' has created ripple effects through history...")
    /\ timeline_alterations s' = timeline_alterations s
    /\ is_complete s' = is_complete s.
Proof.
  intros Hs Hget Hfind Hd Hr Hbad.
  rewrite make_choice_outcome, Hs, Hget, Hfind, Hd.
  unfold consequence_prompt_of. rewrite Hr.
  assert (Hnone : read_consequence consequence = None).
  { unfold read_consequence.
    destruct Hbad as [[x Hx]|(changes & x & Hch & Hit)].
    - now rewrite Hx.
    - destruct (getitem consequence "new_situation"); [|reflexivity].
      rewrite Hch. simpl. now rewrite Hit. }
  unfold after_consequence. rewrite Hnone.
  do 2 eexists. split; [reflexivity|]. simpl. repeat split.
Qed.

(** Only the service ends a session: when [make_choice] takes a session
    that is not complete to a complete one, it has returned [True] and the
    consequence reply decoded to a value whose [is_ending] is true in
    Python's sense. *)
Theorem completion_needs_ending_flag
        (choice_id : string) (e e' : GameEngine) (r : result bool) (s s' : GameState) :
  make_choice repr choice_id e = (e', r) ->
  current_state e = Some s ->
  is_complete s = false ->
  current_state e' = Some s' ->
  is_complete s' = true ->
  r = Returned true
  /\ exists e1 v d consequence flag,
       get_available_choices e = (e1, Returned v)
       /\ consequence_reply e1
            (ConsequencePrompt (name (scenario s)) (current_situation s) d)
          = Content (Decodable consequence)
       /\ get_method consequence "is_ending" (JBool false) = Returned flag
       /\ truthy flag = true.
Proof.
  rewrite make_choice_outcome. intros H Hs Hc Hs' Hc'. rewrite Hs in H.
  destruct (get_available_choices e) as [e1 [v|x]] eqn:Hget.
  2:{ inversion H. subst. apply get_available_choices_session in Hget.
      rewrite Hget, Hs in Hs'. inversion Hs'. congruence. }
  pose proof (get_available_choices_session e Hget) as Hs1. rewrite Hs in Hs1.
  destruct (find_choice v choice_id) as [[o|]|x];
    try (inversion H; subst; rewrite Hs1 in Hs'; inversion Hs'; congruence).
  destruct (getitem o "description") as [d|x].
  2:{ inversion H. subst. simpl in Hs'. inversion Hs'. subst. simpl in Hc'.
      congruence. }
  inversion H. subst e' r. split; [reflexivity|].
  simpl in Hs'. inversion Hs'. subst s'. clear Hs' H.
  unfold after_consequence, consequence_prompt_of in Hc'.
  destruct (consequence_reply e1 _) as [err|[err|c]] eqn:Hr;
    try (simpl in Hc'; congruence).
  unfold read_consequence in Hc'.
  destruct (getitem c "new_situation"); [|simpl in Hc'; congruence].
  destruct (result_bind _ _); [|simpl in Hc'; congruence].
  destruct (get_method c "is_ending" (JBool false)) as [flag|] eqn:Hfl;
    [|simpl in Hc'; congruence].
  simpl in Hc'. destruct (truthy flag) eqn:Ht; [|congruence].
  exists e1, v, d, c, flag. repeat split; assumption.
Qed.

(** *** What a call leaves in place *)

Lemma get_available_choices_shape (e e' : GameEngine) (r : result json) :
  get_available_choices e = (e', r) ->
  e' = e \/ exists p, e' = asked e (choice_request e p).
Proof.
  destruct (current_state e) as [s|] eqn:Hs.
  - destruct (is_complete s) eqn:Hc.
    + rewrite get_available_choices_idle by (rewrite Hs; exact Hc).
      intros H. inversion H. now left.
    + rewrite (get_available_choices_active e Hs Hc).
      destruct (choice_prompt s) as [p|x]; intros H; inversion H;
        [right; now exists p | now left].
  - rewrite get_available_choices_idle by (now rewrite Hs).
    intros H. inversion H. now left.
Qed.

Lemma grows_same (e e' : GameEngine) :
  current_state e' = current_state e -> grows e e'.
Proof.
  unfold grows. intros ->. destruct (current_state e) as [s|]; [|exact I].
  repeat split; try (exists []; now rewrite app_nil_r). auto.
Qed.

Lemma grows_trans (e1 e2 e3 : GameEngine) :
  grows e1 e2 -> grows e2 e3 -> grows e1 e3.
Proof.
  unfold grows.
  destruct (current_state e1) as [s1|], (current_state e2) as [s2|],
    (current_state e3) as [s3|]; try tauto.
  intros (Hsc & [c Hc] & [t Ht] & Hf) (Hsc' & [c' Hc'] & [t' Ht'] & Hf').
  repeat split.
  - congruence.
  - exists (c ++ c'). now rewrite Hc', Hc, app_assoc.
  - exists (t ++ t'). now rewrite Ht', Ht, app_assoc.
  - auto.
Qed.

Lemma sent_since_same (n : nat) (e e' : GameEngine) :
  ai_client e' = ai_client e -> sent_since n e e'.
Proof.
  unfold sent_since. intros ->. repeat split.
  exists []. rewrite app_nil_r. split; [reflexivity|simpl; lia].
Qed.

Lemma sent_since_trans (n m : nat) (e1 e2 e3 : GameEngine) :
  sent_since n e1 e2 -> sent_since m e2 e3 -> sent_since (n + m) e1 e3.
Proof.
  intros (Hm & Hsv & l & Hl & Hn) (Hm' & Hsv' & l' & Hl' & Hn').
  repeat split; try congruence.
  exists (l ++ l'). split.
  - now rewrite Hl', Hl, app_assoc.
  - rewrite length_app. lia.
Qed.

Lemma sent_since_more (n m : nat) (e e' : GameEngine) :
  n <= m -> sent_since n e e' -> sent_since m e e'.
Proof.
  intros Hnm (Hm & Hsv & l & Hl & Hn). repeat split; auto.
  exists l. split; [exact Hl|lia].
Qed.

Lemma indicator_same (e e' : GameEngine) : ui e' = ui e -> indicator_settled e e'.
Proof. unfold indicator_settled. intros ->. auto. Qed.

Lemma indicator_stopped (e e' : GameEngine) :
  ui e' = option_map stop_loading (option_map start_loading (ui e)) ->
  indicator_settled e e'.
Proof.
  unfold indicator_settled. intros ->. destruct (ui e); simpl; auto.
Qed.

Lemma indicator_trans (e1 e2 e3 : GameEngine) :
  indicator_settled e1 e2 -> indicator_settled e2 e3 -> indicator_settled e1 e3.
Proof.
  unfold indicator_settled. intros [Hw H12] [Hw' H23]. split; [congruence|].
  destruct H23 as [->|H23]; [exact H12|]. right. rewrite H23.
  destruct (ui e1), (ui e2); simpl in *; try reflexivity; discriminate.
Qed.

Lemma left_in_place_trans (n m : nat) (e1 e2 e3 : GameEngine) :
  left_in_place n e1 e2 -> left_in_place m e2 e3 -> left_in_place (n + m) e1 e3.
Proof.
  intros (Hg & Ha & Hs & Hi) (Hg' & Ha' & Hs' & Hi').
  split; [|split; [|split]].
  - eapply grows_trans; eauto.
  - congruence.
  - eapply sent_since_trans; eauto.
  - eapply indicator_trans; eauto.
Qed.

Lemma left_in_place_more (n m : nat) (e e' : GameEngine) :
  n <= m -> left_in_place n e e' -> left_in_place m e e'.
Proof.
  intros Hnm (Hg & Ha & Hs & Hi). split; [|split; [|split]]; auto.
  eapply sent_since_more; eauto.
Qed.

Lemma left_in_place_refl (n : nat) (e : GameEngine) : left_in_place n e e.
Proof.
  split; [|split; [|split]].
  - now apply grows_same.
  - reflexivity.
  - now apply sent_since_same.
  - now apply indicator_same.
Qed.

Lemma get_available_choices_in_place (e e' : GameEngine) (r : result json) :
  get_available_choices e = (e', r) -> left_in_place 1 e e'.
Proof.
  intros H. destruct (get_available_choices_shape e H) as [->|[p ->]].
  - apply left_in_place_refl.
  - split; [|split; [|split]].
    + now apply grows_same.
    + reflexivity.
    + split; [reflexivity|]. split; [reflexivity|].
      exists [choice_request e p]. split; [reflexivity|simpl; lia].
    + now apply indicator_stopped.
Qed.

Lemma after_consequence_grows (s : GameState) (o d : json) (r : reply) :
  let s' := after_consequence repr (chosen s o) d r in
  scenario s' = scenario s
  /\ choices_made s' = choices_made s ++ [o]
  /\ (exists added, timeline_alterations s' = timeline_alterations s ++ added)
  /\ (is_complete s = true -> is_complete s' = true).
Proof.
  unfold after_consequence.
  destruct r as [err|[err|c]];
    try (simpl; repeat split; auto; exists []; now rewrite app_nil_r).
  destruct (read_consequence c) as [[[x items] ending]|]; simpl.
  - repeat split; [now exists items | now destruct ending].
  - repeat split; auto. exists []. now rewrite app_nil_r.
Qed.

Lemma make_choice_in_place (choice_id : string) (e e' : GameEngine) (r : result bool) :
  make_choice repr choice_id e = (e', r) -> left_in_place 2 e e'.
Proof.
  rewrite make_choice_outcome.
  destruct (current_state e) as [s|] eqn:Hs.
  2:{ intros H. inversion H. subst. apply left_in_place_refl. }
  destruct (get_available_choices e) as [e1 [v|x]] eqn:Hget.
  2:{ intros H. inversion H. subst.
      apply get_available_choices_in_place in Hget.
      eapply left_in_place_more; [|exact Hget]. lia. }
  pose proof (get_available_choices_session e Hget) as Hs1. rewrite Hs in Hs1.
  apply get_available_choices_in_place in Hget.
  assert (Hone : forall e2, left_in_place 1 e1 e2 -> left_in_place 2 e e2).
  { intros e2. apply (left_in_place_trans Hget). }
  destruct (find_choice v choice_id) as [[o|]|x];
    try (intros H; inversion H; subst; apply Hone, left_in_place_refl).
  destruct (getitem o "description") as [d|x]; intros H; inversion H; subst;
    apply Hone; (split; [|split; [|split]]).
  - pose proof (after_consequence_grows s o d
                  (consequence_reply e1 (consequence_prompt_of s d)))
      as (Hsc & Hch & Htl & Hfl).
    unfold grows. simpl. rewrite Hs1.
    split; [exact Hsc|]. split; [rewrite Hch; now exists [o]|].
    split; [exact Htl|exact Hfl].
  - reflexivity.
  - split; [reflexivity|]. split; [reflexivity|].
    exists [consequence_request (recorded e1 s o) (consequence_prompt_of s d)].
    split; [reflexivity|simpl; lia].
  - now apply indicator_stopped.
  - unfold grows. simpl. rewrite Hs1.
    split; [reflexivity|]. split; [now exists [o]|].
    split; [exists []; now rewrite app_nil_r|auto].
  - reflexivity.
  - now apply sent_since_same.
  - now apply indicator_same.
Qed.

Lemma perform_in_place (c : call) (e e' : GameEngine) (o : outcome) :
  perform repr c e = (e', o) -> left_in_place (budget c) e e'.
Proof.
  destruct c as [|choice_id]; simpl.
  - destruct (get_available_choices e) as [e1 r] eqn:H. intros H'. inversion H'.
    subst. now apply get_available_choices_in_place in H.
  - destruct (make_choice repr choice_id e) as [e1 r] eqn:H. intros H'.
    inversion H'. subst. now apply make_choice_in_place in H.
Qed.

Lemma run_in_place (calls : list call) (e e' : GameEngine) (outs : list outcome) :
  run repr calls e = (e', outs) -> left_in_place (total_budget calls) e e'.
Proof.
  revert e e' outs. induction calls as [|c calls IH]; simpl; intros e e' outs H.
  - inversion H. subst. apply left_in_place_refl.
  - destruct (perform repr c e) as [e1 o] eqn:Hp.
    destruct (run repr calls e1) as [e2 os] eqn:Hr. inversion H. subst.
    eapply left_in_place_trans; [eapply perform_in_place|eapply IH]; eauto.
Qed.

(** Whatever calls of [get_available_choices] and [make_choice] are made,
    and however each ends, the session only grows: the scenario stays,
    choices and alterations are added at the end of their lists, a
    complete session stays complete, no session appears or disappears, and
    the [_active] flag is as it was. *)
Theorem session_only_grows (calls : list call) (e : GameEngine) :
  grows e (fst (run repr calls e))
  /\ _active (fst (run repr calls e)) = _active e.
Proof.
  destruct (run repr calls e) as [e' outs] eqn:H.
  apply run_in_place in H. destruct H as (Hg & Ha & _). now split.
Qed.

(** Counting the calls of [chat.completions.create] (what the library
    does below a call is not seen here): [get_available_choices] makes at
    most one, [make_choice] at most two, so a run makes at most its total
    budget; the calls are added at the end of the log and the model and
    the service of the client never change. *)
Theorem requests_within_budget (calls : list call) (e : GameEngine) :
  sent_since (total_budget calls) e (fst (run repr calls e)).
Proof.
  destruct (run repr calls e) as [e' outs] eqn:H.
  apply run_in_place in H. now destruct H as (_ & _ & Hs & _).
Qed.

(** Whatever calls are made, each returning or raising an exception that
    derives from [Exception] (the only ones modelled: [stop_loading] sits
    in [except Exception] blocks, not in a [finally], so an interrupt
    during a request is outside this statement), the loading indicator is
    left as it was or stopped. *)
Theorem indicator_never_left_running (calls : list call) (e : GameEngine) :
  indicator_settled e (fst (run repr calls e)).
Proof.
  destruct (run repr calls e) as [e' outs] eqn:H.
  apply run_in_place in H. now destruct H as (_ & _ & _ & Hi).
Qed.

(** When [make_choice] returns [True] it has sent exactly two requests,
    in this order: the choice request (the choice prompt, 500 tokens) and
    the consequence request (the scenario name, the situation before the
    choice and the description of the recorded option, 800 tokens). *)
Theorem make_choice_two_requests (choice_id : string) (e e' : GameEngine) :
  make_choice repr choice_id e = (e', Returned true) ->
  exists s s' p o d,
    current_state e = Some s
    /\ choice_prompt s = Returned p
    /\ current_state e' = Some s'
    /\ choices_made s' = choices_made s ++ [o]
    /\ getitem o "description" = Returned d
    /\ sent (ai_client e')
       = sent (ai_client e)
         ++ [ {| req_model := model (ai_client e); req_prompt := p;
                 max_tokens := 500 |};
              {| req_model := model (ai_client e);
                 req_prompt := ConsequencePrompt (name (scenario s))
                                                 (current_situation s) d;
                 max_tokens := 800 |} ].
Proof.
  intros H. pose proof H as H0. apply make_choice_returned in H0.
  destruct H0 as (s & s' & e1 & v & o & d & Hs & Hget & Hfind & Hd & Hs' & Hch).
  rewrite make_choice_outcome, Hs, Hget, Hfind, Hd in H. inversion H. subst e'.
  clear H. destruct (is_complete s) eqn:Hc.
  { rewrite get_available_choices_idle in Hget by (rewrite Hs; exact Hc).
    inversion Hget. subst. discriminate. }
  rewrite (get_available_choices_active e Hs Hc) in Hget.
  destruct (choice_prompt s) as [p|x] eqn:Hp; [|discriminate].
  inversion Hget. subst e1.
  exists s, s', p, o, d. repeat split; try assumption.
  simpl. now rewrite <- app_assoc.
Qed.

(** In a run where no call raises, the decision count [get_current_state]
    reports has gone up by the number of [make_choice] calls that
    returned [True]. *)
Theorem decisions_count_true_returns (calls : list call) (e e' : GameEngine)
        (outs : list outcome) :
  run repr calls e = (e', outs) ->
  forallb returned outs = true ->
  option_map decisions (get_current_state e')
  = option_map (fun st => decisions st + List.length (filter made outs))
               (get_current_state e).
Proof.
  revert e e' outs. induction calls as [|c calls IH]; simpl; intros e e' outs H Hret.
  - inversion H. subst. simpl. destruct (get_current_state e'); simpl; f_equal; lia.
  - destruct (perform repr c e) as [e1 o] eqn:Hp.
    destruct (run repr calls e1) as [e2 os] eqn:Hr. inversion H. subst e2 outs.
    simpl in Hret. apply andb_true_iff in Hret as [Ho Hos].
    rewrite (IH _ _ _ Hr Hos). clear IH Hr Hos. simpl.
    destruct c as [|choice_id]; simpl in Hp.
    + destruct (get_available_choices e) as [e1' r] eqn:Hget. inversion Hp. subst.
      apply get_available_choices_session in Hget. unfold get_current_state.
      rewrite Hget. simpl. now destruct (current_state e).
    + destruct (make_choice repr choice_id e) as [e1' r] eqn:Hm. inversion Hp. subst.
      destruct r as [b|x]; [|discriminate].
      apply make_choice_returned in Hm. unfold get_current_state. destruct b; simpl.
      * destruct Hm as (s & s' & _ & _ & o & _ & Hs & _ & _ & _ & Hs' & Hch).
        rewrite Hs, Hs'. simpl. rewrite Hch, length_app. simpl. f_equal. lia.
      * rewrite Hm. now destruct (current_state e).
Qed.

(** While the service fails every request, no run of calls completes a
    session: whatever is called, a session that is not complete stays so. *)
Theorem outage_never_completes (calls : list call) (e : GameEngine) (s : GameState) :
  (forall n r, fails (service (ai_client e) n r) = true) ->
  current_state e = Some s ->
  is_complete s = false ->
  exists s',
    current_state (fst (run repr calls e)) = Some s'
    /\ is_complete s' = false.
Proof.
  revert e s. induction calls as [|c calls IH]; simpl; intros e s Hout Hs Hc.
  - now exists s.
  - destruct (perform repr c e) as [e1 o] eqn:Hp.
    assert (Hstep : service (ai_client e1) = service (ai_client e)
                    /\ exists s1, current_state e1 = Some s1
                                  /\ is_complete s1 = false).
    { split.
      - apply perform_in_place in Hp. now destruct Hp as (_ & _ & (_ & Hsv & _) & _).
      - destruct c as [|choice_id]; simpl in Hp.
        + destruct (get_available_choices e) as [e1' r] eqn:Hget. inversion Hp.
          subst. apply get_available_choices_session in Hget.
          exists s. now rewrite Hget.
        + rewrite make_choice_outcome, Hs in Hp.
          destruct (get_available_choices e) as [e0 [v|x]] eqn:Hget.
          2:{ inversion Hp. subst. apply get_available_choices_session in Hget.
              exists s. now rewrite Hget. }
          pose proof (get_available_choices_session e Hget) as Hs0.
          rewrite Hs in Hs0.
          assert (Hsv0 : service (ai_client e0) = service (ai_client e)).
          { apply get_available_choices_in_place in Hget.
            now destruct Hget as (_ & _ & (_ & Hsv & _) & _). }
          destruct (find_choice v choice_id) as [[ch|]|x];
            try (inversion Hp; subst; now exists s).
          destruct (getitem ch "description") as [d|x]; inversion Hp; subst;
            simpl.
          * eexists. split; [reflexivity|].
            unfold consequence_reply, next_reply. rewrite Hsv0.
            specialize (Hout (List.length (sent (ai_client e0)))
                             (consequence_request e0 (consequence_prompt_of s d))).
            unfold after_consequence.
            destruct (service (ai_client e) _ _) as [err|[err|c]]; try exact Hc.
            discriminate.
          * eexists. split; [reflexivity|exact Hc]. }
    destruct Hstep as [Hsv (s1 & Hs1 & Hc1)].
    destruct (run repr calls e1) as [e2 os] eqn:Hr. simpl.
    specialize (IH e1 s1). rewrite Hr in IH. simpl in IH. apply IH; auto.
    intros n r. rewrite Hsv. apply Hout.
Qed.

Lemma find_fallback_choice (choice_id : string) :
  find_choice _get_fallback_choices choice_id
  = Returned (if String.eqb "diplomatic" choice_id then Some (fallback_option 0)
              else if String.eqb "aggressive" choice_id then Some (fallback_option 1)
              else if String.eqb "wait" choice_id then Some (fallback_option 2)
              else None).
Proof.
  unfold find_choice.
  change (iterate _get_fallback_choices)
    with (Returned [fallback_option 0; fallback_option 1; fallback_option 2]).
  unfold result_bind at 1. unfold first_match.
  change (getitem (fallback_option 0) "id") with (Returned (JString "diplomatic")).
  change (getitem (fallback_option 1) "id") with (Returned (JString "aggressive")).
  change (getitem (fallback_option 2) "id") with (Returned (JString "wait")).
  unfold result_bind, eq_str.
  destruct (String.eqb "diplomatic" choice_id); [reflexivity|].
  destruct (String.eqb "aggressive" choice_id); [reflexivity|].
  destruct (String.eqb "wait" choice_id); reflexivity.
Qed.

(** When the choice request fails (or its reply is not a JSON object),
    [make_choice] works on the fallback choices: [diplomatic], [aggressive]
    and [wait] are accepted, the fallback option of that identifier is
    recorded and [True] returned; any other identifier is refused with
    [False] and the session is as before. *)
Theorem fallback_choice_accepted
        (choice_id : string) (e : GameEngine) (s : GameState) (p : prompt) :
  current_state e = Some s ->
  is_complete s = false ->
  choice_prompt s = Returned p ->
  falls_back (choice_reply e p) = true ->
  if existsb (fun k => String.eqb k choice_id) fallback_ids then
    exists e' s' o,
      make_choice repr choice_id e = (e', Returned true)
      /\ current_state e' = Some s'
      /\ choices_made s' = choices_made s ++ [o]
      /\ find_choice _get_fallback_choices choice_id = Returned (Some o)
      /\ getitem o "id" = Returned (JString choice_id)
  else
    exists e',
      make_choice repr choice_id e = (e', Returned false)
      /\ current_state e' = current_state e.
Proof.
  intros Hs Hc Hp Hr.
  assert (Hget : get_available_choices e
                 = (asked e (choice_request e p), Returned _get_fallback_choices)).
  { rewrite (get_available_choices_active e Hs Hc), Hp. f_equal. f_equal.
    unfold choices_of_reply.
    destruct (choice_reply e p) as [err|[err|data]]; try reflexivity.
    destruct data; try reflexivity. discriminate. }
  rewrite make_choice_outcome, Hs, Hget, find_fallback_choice.
  cbv [fallback_ids existsb].
  assert (Hrec : forall n d,
             getitem (fallback_option n) "description" = Returned d ->
             getitem (fallback_option n) "id" = Returned (JString choice_id) ->
             exists e' s' o,
               (let e1 := asked e (choice_request e p) in
                (answered (recorded e1 s (fallback_option n))
                   (consequence_prompt_of s d)
                   (after_consequence repr (chosen s (fallback_option n)) d
                      (consequence_reply e1 (consequence_prompt_of s d))),
                 Returned true)) = (e', Returned true)
               /\ current_state e' = Some s'
               /\ choices_made s' = choices_made s ++ [o]
               /\ Returned (Some (fallback_option n)) = Returned (Some o)
               /\ getitem o "id" = Returned (JString choice_id)).
  { intros n d Hd Hid. do 3 eexists. split; [reflexivity|].
    split; [reflexivity|]. split; [|split; [reflexivity|exact Hid]].
    simpl. apply after_consequence_keeps. }
  destruct (String.eqb_spec "diplomatic" choice_id) as [<-|_].
  { simpl. apply (Hrec 0 (JString "Pursue diplomatic negotiations"));
      reflexivity. }
  destruct (String.eqb_spec "aggressive" choice_id) as [<-|_].
  { simpl. apply (Hrec 1 (JString "Take decisive military action"));
      reflexivity. }
  destruct (String.eqb_spec "wait" choice_id) as [<-|_].
  { simpl. apply (Hrec 2 (JString "Wait and gather more information"));
      reflexivity. }
  simpl. eexists. split; [reflexivity|]. simpl. exact Hs.
Qed.

(** [make_choice] matches against the options of its own request, not
    those a [get_available_choices] before it returned: when the reply to
    the second choice request is an object with a list under [choices]
    whose entries all have an identifier that can be read and is not the
    one asked for, the choice is dropped with [False] whatever the first
    reply offered; two choice requests have been sent and the session is
    as before. *)
Theorem shown_options_not_matched
        (choice_id : string) (e : GameEngine) (s : GameState) (p : prompt)
        (entries : list (string * json)) (items : list json) :
  current_state e = Some s ->
  is_complete s = false ->
  choice_prompt s = Returned p ->
  choice_reply (asked e (choice_request e p)) p
  = Content (Decodable (JObject entries)) ->
  dict_get "choices" entries = Some (JArray items) ->
  forallb (passed_over choice_id) items = true ->
  exists e',
    run repr [GetAvailableChoices; MakeChoice choice_id] e
    = (e', [Choices (Returned (choices_of_reply (choice_reply e p)));
            Made (Returned false)])
    /\ current_state e' = Some s
    /\ sent (ai_client e')
       = sent (ai_client e)
         ++ [choice_request e p; choice_request e p].
Proof.
  intros Hs Hc Hp Hr Hlist Hall. simpl.
  rewrite (get_available_choices_active e Hs Hc), Hp.
  rewrite make_choice_outcome. simpl current_state. rewrite Hs.
  rewrite (get_available_choices_active (asked e (choice_request e p)) (s := s)
             Hs Hc).
  rewrite Hp, Hr.
  unfold choices_of_reply, _parse_ai_choices, get_method. rewrite Hlist.
  rewrite (@find_choice_passed_over (JArray items) items choice_id eq_refl Hall).
  eexists. split; [reflexivity|]. split; [exact Hs|].
  simpl. now rewrite <- app_assoc.
Qed.

(** Once a scenario has been started, whatever calls follow, a session is
    held and [is_active] says exactly that it is not complete: the
    [_active] flag is never cleared. *)
Theorem is_active_until_complete
        (scenario_name : string) (e0 e : GameEngine) (calls : list call) :
  start_scenario scenario_name e0 = (e, true) ->
  exists s',
    current_state (fst (run repr calls e)) = Some s'
    /\ is_active (fst (run repr calls e)) = negb (is_complete s').
Proof.
  intros Hstart. unfold start_scenario in Hstart.
  destruct (dict_get scenario_name AVAILABLE_SCENARIOS) as [sc|]; [|discriminate].
  inversion Hstart. subst e. clear Hstart.
  destruct (run repr calls _) as [e' outs] eqn:H. simpl.
  apply run_in_place in H. destruct H as (Hg & Ha & _).
  unfold grows in Hg. simpl in Hg, Ha.
  destruct (current_state e') as [s'|] eqn:Hs'; [|contradiction].
  exists s'. split; [reflexivity|].
  unfold is_active. now rewrite Ha, Hs'.
Qed.

End Calls.

(** ** The search for the chosen option *)

(** The search returns the first option that carries the identifier: the
    entries before it all have an identifier that can be read and is a
    different one.  Later options of the same identifier are never
    reached. *)
Theorem find_choice_first_match (items : list json) (choice_id : string) (o : json) :
  find_choice (JArray items) choice_id = Returned (Some o)
  <-> exists before after,
        items = before ++ o :: after
        /\ has_id choice_id o = true
        /\ forallb (passed_over choice_id) before = true.
Proof.
  unfold find_choice. simpl. split.
  - induction items as [|c items IH]; simpl; [discriminate|].
    destruct (getitem c "id") as [i|x] eqn:Hi; simpl; [|discriminate].
    destruct (eq_str i choice_id) eqn:Heq.
    + intros H. inversion H. subst c. exists [], items.
      repeat split. unfold has_id. now rewrite Hi.
    + intros H. destruct (IH H) as (before & after & -> & Hid & Hall).
      exists (c :: before), after. repeat split; [exact Hid|].
      simpl. unfold passed_over at 1, readable_id, has_id.
      now rewrite Hi, Heq.
  - intros (before & after & -> & Hid & Hall).
    induction before as [|c before IH]; simpl.
    + unfold has_id in Hid. destruct (getitem o "id") as [i|x]; [|discriminate].
      simpl. now rewrite Hid.
    + simpl in Hall. apply andb_true_iff in Hall as [Hc Hall].
      unfold passed_over, readable_id, has_id in Hc.
      destruct (getitem c "id") as [i|x]; [|discriminate]. simpl in *.
      destruct (eq_str i choice_id); [discriminate|]. auto.
Qed.

Lemma find_choice_first_match_witness :
  let first := JObject [("id", JString "a"); ("description", JString "one")] in
  let second := JObject [("id", JString "b"); ("description", JString "two")] in
  let third := JObject [("id", JString "b"); ("description", JString "three")] in
  find_choice (JArray [first; second; third]) "b" = Returned (Some second).
Proof.
  intros first second third.
  apply (find_choice_first_match [first; second; third] "b" second).
  exists [first], [third]. repeat split.
Defined.

(** ** The choice prompt *)

Lemma result_map_skipn {A B} (f : A -> result B) (n : nat) (l : list A) (bs : list B) :
  result_map f l = Returned bs ->
  result_map f (skipn n l) = Returned (skipn n bs)
  /\ List.length bs = List.length l.
Proof.
  revert n bs. induction l as [|a l IH]; simpl; intros n bs H.
  - inversion H. now destruct n.
  - destruct (f a) as [b|x] eqn:Hb; simpl in H; [|discriminate].
    destruct (result_map f l) as [bs'|x] eqn:Hl; simpl in H; [|discriminate].
    inversion H. subst bs. destruct (IH 0 bs' eq_refl) as [_ Hlen].
    split; [|simpl; now rewrite Hlen].
    destruct n as [|n]; simpl.
    + now rewrite Hb, Hl.
    + now destruct (IH n bs' eq_refl).
Qed.

(** The choice request of an active session carries the scenario name, the
    current situation and the descriptions of the three most recent
    choices only, in order, under a cap of 500 tokens. *)
Theorem choice_request_recent (e : GameEngine) (s : GameState) (ds : list json) :
  current_state e = Some s ->
  is_complete s = false ->
  result_map (fun choice => getitem choice "description") (choices_made s)
  = Returned ds ->
  sent (ai_client (fst (get_available_choices e)))
  = sent (ai_client e)
    ++ [ {| req_model := model (ai_client e);
            req_prompt := ChoicePrompt (name (scenario s)) (current_situation s)
                                       (last_n 3 ds);
            max_tokens := 500 |} ]
  /\ List.length (last_n 3 ds) = Nat.min 3 (List.length (choices_made s)).
Proof.
  intros Hs Hc Hds.
  destruct (result_map_skipn _ (List.length (choices_made s) - 3) _ Hds)
    as [Hskip Hlen].
  split.
  - rewrite (get_available_choices_active e Hs Hc).
    unfold choice_prompt, last_n. rewrite Hskip, Hlen. reflexivity.
  - unfold last_n. rewrite length_skipn, Hlen. lia.
Qed.

(** ** The catalog and the menu *)

(** Every entry [get_scenario_list] offers starts a scenario: its key is
    accepted by [start_scenario], and the session is on the scenario whose
    description was listed. *)
Theorem listed_scenario_starts (key : string) (text : string) (e : GameEngine) :
  In (key, text) get_scenario_list ->
  exists sc e',
    start_scenario key e = (e', true)
    /\ option_map scenario (current_state e') = Some sc
    /\ description sc = text.
Proof.
  unfold get_scenario_list, AVAILABLE_SCENARIOS. simpl.
  intros H.
  repeat (destruct H as [H|H];
          [inversion H; subst; do 2 eexists;
           split; [reflexivity|split; reflexivity]|]).
  contradiction.
Qed.

(** The key the menu returns for a number is always one [start_scenario]
    accepts, so that a caller that does not test the result of
    [start_scenario] still gets an active session. *)
Theorem menu_selection_starts (choice_num : nat) (key : string) (e : GameEngine) :
  select_by_number choice_num = Selected key ->
  exists e', start_scenario key e = (e', true) /\ is_active e' = true.
Proof.
  unfold select_by_number.
  destruct (Nat.eqb choice_num (List.length get_scenario_list + 1)); [discriminate|].
  destruct (Nat.leb 1 choice_num && Nat.leb choice_num (List.length get_scenario_list))
    eqn:Hin; [|discriminate].
  apply andb_true_iff in Hin as [Hlo Hhi].
  apply Nat.leb_le in Hlo. apply Nat.leb_le in Hhi.
  change (List.length get_scenario_list) with 11 in Hhi.
  intros H. inversion H. subst key. clear H.
  do 12 (destruct choice_num as [|choice_num];
         [try lia; eexists; split; reflexivity|]).
  lia.
Qed.

(** An option of the list can be chosen by its identifier: when the
    entries before it have identifiers that can be read, the search finds
    an option of that identifier, and it is that very option when no
    earlier entry carries the same identifier. *)
Theorem offered_option_found (items : list json) (k : nat) (choice_id : string)
        (o : json) :
  nth_error items k = Some o ->
  has_id choice_id o = true ->
  forallb readable_id (firstn k items) = true ->
  exists o',
    find_choice (JArray items) choice_id = Returned (Some o')
    /\ has_id choice_id o' = true
    /\ (forallb (fun c => negb (has_id choice_id c)) (firstn k items) = true ->
        o' = o).
Proof.
  unfold find_choice. simpl. revert k.
  induction items as [|c items IH]; intros k Hk Hid Hread.
  - destruct k; discriminate.
  - destruct k as [|k]; simpl in *.
    + inversion Hk. subst c. unfold has_id in Hid.
      destruct (getitem o "id") as [i|x] eqn:Hi; [|discriminate]. simpl.
      rewrite Hid. exists o. repeat split. unfold has_id. now rewrite Hi.
    + apply andb_true_iff in Hread as [Hc Hread]. unfold readable_id in Hc.
      destruct (getitem c "id") as [i|x] eqn:Hi; [|discriminate]. simpl.
      destruct (eq_str i choice_id) eqn:Heq.
      * exists c. repeat split.
        -- unfold has_id. now rewrite Hi.
        -- unfold has_id at 1. rewrite Hi, Heq. discriminate.
      * destruct (IH k Hk Hid Hread) as (o' & Hfind & Hid' & Hsame).
        exists o'. repeat split; auto.
        unfold has_id at 1. rewrite Hi, Heq. simpl. exact Hsame.
Qed.

(** [get_available_choices] changes nothing that [get_current_state] or
    [is_active] report, whether it returns the empty list, a parsed reply
    or the fallback choices, or raises. *)
Theorem get_available_choices_display (e : GameEngine) :
  get_current_state (fst (get_available_choices e)) = get_current_state e
  /\ is_active (fst (get_available_choices e)) = is_active e.
Proof.
  destruct (get_available_choices e) as [e' r] eqn:H. simpl.
  pose proof (get_available_choices_session e H) as Hs.
  unfold get_current_state, is_active. rewrite Hs. split; [reflexivity|].
  destruct (get_available_choices_shape e H) as [->|[p ->]]; reflexivity.
Qed.

(** ** Sample runs of the properties above *)

Lemma make_choice_matched_returns_witness :
  let e := started (scripted [json_reply two_options;
                              Content (Undecodable "Expecting value")]) in
  exists e' s',
    make_choice sample_repr "choice_1" e = (e', Returned true)
    /\ current_state e' = Some s'
    /\ scenario s' = library_alexandria
    /\ choices_made s'
       = [] ++ [JObject [ ("id", JString "choice_1");
                          ("description", JString "Evacuate the scrolls");
                          ("potential_impact", JString "Saves the collection") ]].
Proof.
  intros e.
  eapply (@make_choice_matched_returns sample_repr "choice_1" e _
            (new_state library_alexandria) _ _ (JString "Evacuate the scrolls"));
    reflexivity.
Defined.

Lemma make_choice_consequence_applied_witness :
  let e := started (scripted [json_reply two_options; json_reply bare_record]) in
  exists e' s',
    make_choice sample_repr "choice_1" e = (e', Returned true)
    /\ current_state e' = Some s'
    /\ current_situation s' = JString "The scrolls are safe."
    /\ timeline_alterations s' = [] ++ []
    /\ is_complete s' = (truthy (JBool false) || false)%bool.
Proof.
  intros e.
  eapply (@make_choice_consequence_applied sample_repr "choice_1" e _
            (new_state library_alexandria) _ _ (JString "Evacuate the scrolls")
            _ (JString "The scrolls are safe.") (JArray []) (JBool false) []);
    reflexivity.
Defined.

Lemma make_choice_consequence_unreadable_witness :
  let e := started (scripted [json_reply two_options; json_reply odd_record]) in
  exists e' s',
    make_choice sample_repr "choice_1" e = (e', Returned true)
    /\ current_state e' = Some s'
    /\ current_situation s'
       = JString ("Your choice to '" ++ "Evacuate the scrolls"
                  ++ "' has created ripple effects through history...")
    /\ timeline_alterations s' = []
    /\ is_complete s' = false.
Proof.
  intros e.
  eapply (@make_choice_consequence_unreadable sample_repr "choice_1" e _
            (new_state library_alexandria) _ _ (JString "Evacuate the scrolls")
            odd_record); try reflexivity.
  right. exists (JInt 3), TypeError. split; reflexivity.
Defined.

Lemma completion_needs_ending_flag_witness :
  let e := started (scripted [json_reply two_options; json_reply ending_record]) in
  Returned true = Returned true
  /\ exists e1 v d consequence flag,
       get_available_choices e = (e1, Returned v)
       /\ consequence_reply e1
            (ConsequencePrompt (name library_alexandria)
               (JString (initial_situation library_alexandria)) d)
          = Content (Decodable consequence)
       /\ get_method consequence "is_ending" (JBool false) = Returned flag
       /\ truthy flag = true.
Proof.
  intros e.
  eapply (@completion_needs_ending_flag sample_repr "choice_1" e completed
            (Returned true) (new_state library_alexandria));
    reflexivity.
Defined.

Lemma make_choice_two_requests_witness :
  let e := started (scripted [json_reply two_options; json_reply ending_record]) in
  exists s s' p o d,
    current_state e = Some s
    /\ choice_prompt s = Returned p
    /\ current_state completed = Some s'
    /\ choices_made s' = choices_made s ++ [o]
    /\ getitem o "description" = Returned d
    /\ sent (ai_client completed)
       = sent (ai_client e)
         ++ [ {| req_model := model (ai_client e); req_prompt := p;
                 max_tokens := 500 |};
              {| req_model := model (ai_client e);
                 req_prompt := ConsequencePrompt (name (scenario s))
                                                 (current_situation s) d;
                 max_tokens := 800 |} ].
Proof.
  intros e.
  apply (@make_choice_two_requests sample_repr "choice_1" e completed).
  reflexivity.
Defined.

Lemma decisions_count_true_returns_witness :
  let e := started (scripted [json_reply two_options; json_reply other_options;
                              json_reply two_options; json_reply bare_record]) in
  let calls := [GetAvailableChoices; MakeChoice "choice_1"; MakeChoice "choice_2"] in
  option_map decisions (get_current_state (fst (run sample_repr calls e)))
  = option_map (fun st => decisions st
                          + List.length (filter made (snd (run sample_repr calls e))))
               (get_current_state e).
Proof.
  intros e calls.
  apply (@decisions_count_true_returns sample_repr calls e
           (fst (run sample_repr calls e)) (snd (run sample_repr calls e)));
    reflexivity.
Defined.

Lemma outage_never_completes_witness :
  let e := started (scripted []) in
  exists s',
    current_state
      (fst (run sample_repr
              [MakeChoice "wait"; GetAvailableChoices; MakeChoice "diplomatic"] e))
    = Some s'
    /\ is_complete s' = false.
Proof.
  intros e.
  apply (@outage_never_completes sample_repr
           [MakeChoice "wait"; GetAvailableChoices; MakeChoice "diplomatic"] e
           (new_state library_alexandria)).
  - intros n r. unfold e, started, scripted. simpl. now destruct n.
  - reflexivity.
  - reflexivity.
Defined.

Lemma fallback_choice_accepted_witness :
  let e := started (scripted []) in
  exists e' s' o,
    make_choice sample_repr "wait" e = (e', Returned true)
    /\ current_state e' = Some s'
    /\ choices_made s' = [] ++ [o]
    /\ find_choice _get_fallback_choices "wait" = Returned (Some o)
    /\ getitem o "id" = Returned (JString "wait").
Proof.
  intros e.
  exact (@fallback_choice_accepted sample_repr "wait" e
           (new_state library_alexandria)
           (ChoicePrompt "The Library of Alexandria"
              (JString (initial_situation library_alexandria)) [])
           eq_refl eq_refl eq_refl eq_refl).
Defined.

Lemma shown_options_not_matched_witness :
  let e := started (scripted [json_reply two_options; json_reply other_options]) in
  let p := ChoicePrompt "The Library of Alexandria"
             (JString (initial_situation library_alexandria)) [] in
  exists e',
    run sample_repr [GetAvailableChoices; MakeChoice "choice_1"] e
    = (e', [Choices (Returned (choices_of_reply (choice_reply e p)));
            Made (Returned false)])
    /\ current_state e' = Some (new_state library_alexandria)
    /\ sent (ai_client e')
       = sent (ai_client e) ++ [choice_request e p; choice_request e p].
Proof.
  intros e p.
  eapply (@shown_options_not_matched sample_repr "choice_1" e
            (new_state library_alexandria) p);
    reflexivity.
Defined.

Lemma choice_request_recent_witness :
  sent (ai_client (fst (get_available_choices seasoned)))
  = sent (ai_client seasoned)
    ++ [ {| req_model := "gpt-4";
            req_prompt := ChoicePrompt "The Library of Alexandria"
                            (JString "The fire is out.")
                            (last_n 3 [JString "first"; JString "second";
                                       JString "third"; JString "fourth"]);
            max_tokens := 500 |} ]
  /\ List.length (last_n 3 [JString "first"; JString "second";
                            JString "third"; JString "fourth"])
     = Nat.min 3 4.
Proof.
  apply (@choice_request_recent seasoned seasoned_state
           [JString "first"; JString "second"; JString "third"; JString "fourth"]);
    reflexivity.
Defined.

Lemma listed_scenario_starts_witness :
  exists sc e',
    start_scenario "black_death" (new_engine (scripted [])) = (e', true)
    /\ option_map scenario (current_state e') = Some sc
    /\ description sc
       = "What if medieval physicians had understood disease transmission?".
Proof.
  apply listed_scenario_starts.
  unfold get_scenario_list, AVAILABLE_SCENARIOS. simpl.
  right. right. right. left. reflexivity.
Defined.

Lemma menu_selection_starts_witness :
  exists e',
    start_scenario "columbus_pacific" (new_engine (scripted [])) = (e', true)
    /\ is_active e' = true.
Proof.
  apply (@menu_selection_starts 3 "columbus_pacific" (new_engine (scripted []))).
  reflexivity.
Defined.

Lemma offered_option_found_witness :
  let first := option_described "a" "one" in
  let second := option_described "b" "two" in
  exists o',
    find_choice (JArray [first; second]) "b" = Returned (Some o')
    /\ has_id "b" o' = true
    /\ (forallb (fun c => negb (has_id "b" c)) (firstn 1 [first; second]) = true ->
        o' = second).
Proof.
  intros first second.
  apply (@offered_option_found [first; second] 1 "b" second); reflexivity.
Defined.

Lemma is_active_until_complete_witness :
  exists s',
    current_state
      (fst (run sample_repr [MakeChoice "choice_1"; GetAvailableChoices]
              (started (scripted [json_reply two_options;
                                  json_reply ending_record]))))
    = Some s'
    /\ is_active
         (fst (run sample_repr [MakeChoice "choice_1"; GetAvailableChoices]
                 (started (scripted [json_reply two_options;
                                     json_reply ending_record]))))
       = negb (is_complete s').
Proof.
  apply (@is_active_until_complete sample_repr "library_alexandria"
           (new_engine (scripted [json_reply two_options;
                                  json_reply ending_record]))).
  reflexivity.
Defined.

(** ** Iterating text *)

(** A [str] iterates by character: a character outside ASCII, two bytes
    here, is one item. *)
Example chars_by_character :
  iterate (JString "Ögedei")
  = Returned [JString "Ö"; JString "g"; JString "e"; JString "d"; JString "e";
              JString "i"].
Proof. reflexivity. Qed.

(** Alterations given as text are appended character by character. *)
Example alterations_as_text :
  let record := JObject [ ("new_situation", JString "X");
                          ("alterations", JString "né") ] in
  option_map timeline_alterations
    (current_state
       (fst (make_choice sample_repr "choice_1"
               (started (scripted [json_reply two_options; json_reply record])))))
  = Some [JString "n"; JString "é"].
Proof. reflexivity. Qed.
